(** * DatabaseHelper: unread-message and notification lookups

    A shallow embedding of the [DatabaseHelper] class (the notification
    service's database layer): the connection-string builder, the digest
    aggregator, the instant and digest notification finders with their
    sent-stamping, and the unread direct-message finder.

    Conventions.
    - Dates are integers: milliseconds since the epoch.  [null] and a
      missing field are both [None], as the store's [field: null] filter
      does not tell them apart.
    - Document and post identifiers are the strings the identifiers print as
      (the code compares them through [toString] and uses them as property
      keys).
    - A number of the configuration is an integer of magnitude below
      [10^21], which JavaScript prints in full.
    - A frequency is the name of a tier.  The store reads
      [emailSentAt.<frequency>] as a path: for a plain field name, which is
      what the four tiers are, it is the field of that name in the
      [emailSentAt] document, and this is what the map [emailSentAt] holds.
      Statements about stamps are made for the tiers.
    - The document store is an explicit state [DB.t]; a method of the class
      is a function from the state to an outcome and a new state.  Each
      invocation is given the clock reading [now] that its [new Date()]
      calls observe; the code never compares the value of a stamp, only
      whether it is there. *)

From Stdlib Require Import ZArith List Lia Sorted Permutation.
From stdpp Require Import base option list strings gmap pretty.
Import ListNotations.
Local Open Scope Z_scope.

(** ** JavaScript values, errors and arrays *)

Module Js.

(** The values a configuration field can hold.  [Num n] is the integer
    [n], of magnitude below [10^21]. *)
Inductive value : Type :=
| Undefined
| Null
| Str (s : string)
| Num (n : Z)
| Bool (b : bool).

(** [ToBoolean]. *)
Definition truthy (v : value) : bool :=
  match v with
  | Undefined | Null => false
  | Str s => negb (String.eqb s "")
  | Num n => negb (n =? 0)
  | Bool b => b
  end.

(** [ToString], as a template literal applies it (a number of magnitude
    [10^21] or more would print in exponent form). *)
Definition toString (v : value) : string :=
  match v with
  | Undefined => "undefined"
  | Null => "null"
  | Str s => s
  | Num n => pretty n
  | Bool true => "true"
  | Bool false => "false"
  end.

Inductive error : Type :=
| TypeError.

(** How a call ends: with a value, or with an exception that nothing in
    the class catches. *)
Inductive outcome (A : Type) : Type :=
| Returned (a : A)
| Thrown (e : error).
Arguments Returned {A} a.
Arguments Thrown {A} e.

Section Arrays.
Context {A : Type}.

Fixpoint insertBy (cmp : A → A → Z) (x : A) (l : list A) : list A :=
  match l with
  | [] => [x]
  | y :: l' => if cmp x y <=? 0 then x :: y :: l' else y :: insertBy cmp x l'
  end.

(** [Array.prototype.sort(cmp)]: the sort is stable, so for a comparator
    that orders by a numeric key the result is the one of a stable
    insertion sort. *)
Definition sort (cmp : A → A → Z) (l : list A) : list A :=
  foldr (insertBy cmp) [] l.

(** [Array.prototype.slice(0, n)]. *)
Definition slice0 (n : nat) (l : list A) : list A := take n l.
End Arrays.

(** *** Objects used as dictionaries

    Own properties in insertion order, one entry per key.  Inherited
    properties are not modelled: the functions below are those of an object
    that is used as a dictionary, which a JavaScript object is on every key
    but two.  An assignment to [__proto__] sets the prototype and makes no
    own property, and an own property [hasOwnProperty] shadows the method
    of that name.  The other member names of [Object.prototype] get an own
    property like any key.  Statements that depend on every key having its
    entry are made for keys other than these two ([ordinaryKey] below). *)
Section Objects.
Context {V : Type}.

Definition hasOwnProperty (o : list (string * V)) (k : string) : bool :=
  existsb (λ kv, String.eqb (fst kv) k) o.

Definition get (o : list (string * V)) (k : string) : option V :=
  snd <$> find (λ kv, String.eqb (fst kv) k) o.

(** The object stored under [k] is changed in place. *)
Definition update (f : V → V) (k : string) (o : list (string * V))
  : list (string * V) :=
  map (λ kv, if String.eqb (fst kv) k then (fst kv, f (snd kv)) else kv) o.

(** [o[k] = v]: a new key goes last, an old key keeps its place. *)
Definition set (o : list (string * V)) (k : string) (v : V)
  : list (string * V) :=
  if hasOwnProperty o k then update (λ _, v) k o else o ++ [(k, v)].

Definition digit (c : Ascii.ascii) : option Z :=
  let n := Z.of_N (Ascii.N_of_ascii c) in
  if (48 <=? n) && (n <=? 57) then Some (n - 48) else None.

Fixpoint digits (s : string) (acc : Z) : option Z :=
  match s with
  | EmptyString => Some acc
  | String c s' =>
      match digit c with
      | Some d => digits s' (10 * acc + d)
      | None => None
      end
  end.

(** A key is an array index when it is the canonical decimal form of an
    integer below [2^32 - 1]. *)
Definition arrayIndex (k : string) : option Z :=
  match k with
  | EmptyString => None
  | String c rest =>
      if bool_decide (digit c = Some 0) && negb (String.eqb rest "") then None
      else match digits k 0 with
           | Some n => if n <=? 4294967294 then Some n else None
           | None => None
           end
  end.

Definition indexOf (kv : string * V) : Z :=
  default 0 (arrayIndex (fst kv)).

(** [Object.values(o)]: array-index keys first, in ascending numeric
    order, then the other keys in insertion order. *)
Definition values (o : list (string * V)) : list V :=
  map snd
    (sort (λ a b, indexOf a - indexOf b)
       (List.filter (λ kv, bool_decide (is_Some (arrayIndex (fst kv)))) o))
  ++ map snd
       (List.filter (λ kv, negb (bool_decide (is_Some (arrayIndex (fst kv))))) o).
End Objects.

End Js.

Abbreviation Returned := Js.Returned.
Abbreviation Thrown := Js.Thrown.

(** ** Enumerations of the models directory *)

(** Modelled from the spec: [models/email-frequency] is not part of the
    sources at hand; the spec names the four tiers instant, daily, weekly
    and biweekly. *)
Module EmailFrequency.
Definition INSTANT : string := "instant".
Definition DAILY : string := "daily".
Definition WEEKLY : string := "weekly".
Definition BIWEEKLY : string := "biweekly".
End EmailFrequency.

(** Modelled from the spec: [models/notification-action] is not part of the
    sources at hand; the spec names the action kinds comment, like and
    share, which are also the counter names the aggregator initialises. *)
Module NotificationAction.
Definition COMMENT : string := "comment".
Definition LIKE : string := "like".
Definition SHARE : string := "share".
End NotificationAction.

(** Modelled from the spec: [models/message-thread-status] is not part of
    the sources at hand; the spec names the statuses accepted and pending. *)
Module MessageThreadStatus.
Definition ACCEPTED : string := "accepted".
Definition PENDING : string := "pending".
End MessageThreadStatus.

(** Modelled from the spec: [date-helper] is not part of the sources at
    hand; the spec describes the bounds as now minus the lookback interval
    in minutes and now minus the window in days.  An [undefined] number of
    days gives no valid date. *)
Module DateHelper.
Definition subtractMinutes (date minutes : Z) : Z := date - minutes * 60000.
Definition subtractDays (date : Z) (days : option Z) : option Z :=
  (λ d, date - d * 86400000) <$> days.
End DateHelper.

(** ** Documents *)

Module Participant.
Record t : Type := {
  id : string;
  newMessages : Z;
  lastAccess : Z;
  status : string;
}.
End Participant.

Module InstantPrefs.
Record t : Type := { message : bool }.
End InstantPrefs.

Module NotifyPrefs.
Record t : Type := { instant : option InstantPrefs.t }.
End NotifyPrefs.

Module User.
Record t : Type := {
  _id : string;
  email : string;
  notifyPrefs : option NotifyPrefs.t;
}.
End User.

(** A thread as stored. *)
Module ThreadDoc.
Record t : Type := {
  _id : string;
  participants : list Participant.t;
}.
End ThreadDoc.

(** A thread joined with the user records of its participants. *)
Module Thread.
Record t : Type := {
  _id : string;
  participants : list Participant.t;
  users : list User.t;
}.
End Thread.

Module Message.
Record t : Type := {
  _id : string;
  threadId : string;
  createdAt : Z;
  content : string;
}.
End Message.

(** One output document of the [$group] stage over messages. *)
Module MessageGroup.
Record t : Type := {
  _id : string;
  latestMessage : Message.t;
}.
End MessageGroup.

Module Post.
Record t : Type := {
  id : string;
  title : string;
}.
End Post.

Module Notification.
Record t : Type := {
  _id : string;
  receiver : string;
  post : Post.t;
  action : string;
  createdAt : Z;
  readAt : option Z;
  emailSentAt : gmap string Z;
}.
End Notification.

(** A notification whose [receiver] has been replaced by the user record. *)
Module ReceivedNotification.
Record t : Type := {
  notification : Notification.t;
  receiver : User.t;
}.
End ReceivedNotification.

(** One receiver's group on the digest path, after the join. *)
Module ReceiverGroup.
Record t : Type := {
  _id : string;
  notifications : list Notification.t;
  receiver : User.t;
}.
End ReceiverGroup.

Module Counts.
(** [other] lists the keys outside the four counters that
    [counts[action] += 1] has created; what they hold is not a count. *)
Record t : Type := {
  comment : Z;
  like : Z;
  share : Z;
  total : Z;
  other : list string;
}.
End Counts.

Module PostAggregate.
Record t : Type := {
  latest : option Notification.t;
  post : Post.t;
  counts : Counts.t;
}.
End PostAggregate.

Module Digest.
Record t : Type := {
  posts : list PostAggregate.t;
  receiver : User.t;
}.
End Digest.

(** The receiver of an unread message: the participant with the email of
    the user record. *)
Module Receiver.
Record t : Type := {
  participant : Participant.t;
  email : string;
}.
End Receiver.

Module UnreadMessage.
Record t : Type := {
  sender : Participant.t;
  receiver : Receiver.t;
  message : Message.t;
}.
End UnreadMessage.

Module Config.
Record t : Type := {
  protocol : Js.value;
  username : Js.value;
  password : Js.value;
  host : Js.value;
  port : Js.value;
  retryWrites : Js.value;
  database : string;
  instantUnreadLookbackInterval : Z;
}.
End Config.

(** ** The store *)

Module DB.
Record t : Type := {
  threads : list ThreadDoc.t;
  messages : list Message.t;
  notifications : list Notification.t;
  users : list User.t;
}.
End DB.

(** A method: it reads and writes the store and returns or throws. *)
Definition M (A : Type) : Type := DB.t → Js.outcome A * DB.t.

Definition ret {A} (a : A) : M A := λ db, (Returned a, db).

Definition throw {A} (e : Js.error) : M A := λ db, (Thrown e, db).

Definition bind {A B} (m : M A) (k : A → M B) : M B :=
  λ db, match m db with
        | (Returned a, db') => k a db'
        | (Thrown e, db') => (Thrown e, db')
        end.

Notation "'let*' x ':=' m 'in' k" := (bind m (λ x, k))
  (at level 10, x name, m at level 100, k at level 200, only parsing).

Definition lift {A} (o : Js.outcome A) : M A := λ db, (o, db).

(** [collection(...).aggregate(pipeline)] read to the end: the stages only
    read the store. *)
Definition aggregate {R} (pipeline : DB.t → R) : M R :=
  λ db, (Returned (pipeline db), db).

(** [collection("notifications").updateMany(filter, update)]. *)
Definition updateManyNotifications
    (filter : Notification.t → bool) (update : Notification.t → Notification.t)
  : M unit :=
  λ db, (Returned tt,
         {| DB.threads := DB.threads db;
            DB.messages := DB.messages db;
            DB.notifications :=
              map (λ n, if filter n then update n else n) (DB.notifications db);
            DB.users := DB.users db |}).

(** ** The class *)

Module DatabaseHelper.

Record t : Type := {
  uri : string;
  dbName : string;
  instantUnreadLookbackInterval : Z;
}.

Definition _buildUri (config : Config.t) : string :=
  let usernamePassword :=
    if Js.truthy (Config.username config) && Js.truthy (Config.password config)
    then Js.toString (Config.username config) +:+ ":"
         +:+ Js.toString (Config.password config) +:+ "@"
    else "" in
  let port :=
    if Js.truthy (Config.port config)
    then ":" +:+ Js.toString (Config.port config)
    else "" in
  let retryWrites :=
    if Js.truthy (Config.retryWrites config)
    then "?retryWrites=true&w=majority"
    else "" in
  let uri :=
    Js.toString (Config.protocol config) +:+ "://" +:+ usernamePassword
    +:+ Js.toString (Config.host config) +:+ port +:+ retryWrites in
  uri.

Definition constructor (config : Config.t) : t :=
  {| uri := _buildUri config;
     dbName := Config.database config;
     instantUnreadLookbackInterval := Config.instantUnreadLookbackInterval config |}.

(** *** The digest aggregator *)

(** [counts[action] += 1]. *)
Definition incrementAction (action : string) (c : Counts.t) : Counts.t :=
  if String.eqb action "comment" then
    {| Counts.comment := Counts.comment c + 1; Counts.like := Counts.like c;
       Counts.share := Counts.share c; Counts.total := Counts.total c;
       Counts.other := Counts.other c |}
  else if String.eqb action "like" then
    {| Counts.comment := Counts.comment c; Counts.like := Counts.like c + 1;
       Counts.share := Counts.share c; Counts.total := Counts.total c;
       Counts.other := Counts.other c |}
  else if String.eqb action "share" then
    {| Counts.comment := Counts.comment c; Counts.like := Counts.like c;
       Counts.share := Counts.share c + 1; Counts.total := Counts.total c;
       Counts.other := Counts.other c |}
  else if String.eqb action "total" then
    {| Counts.comment := Counts.comment c; Counts.like := Counts.like c;
       Counts.share := Counts.share c; Counts.total := Counts.total c + 1;
       Counts.other := Counts.other c |}
  else
    {| Counts.comment := Counts.comment c; Counts.like := Counts.like c;
       Counts.share := Counts.share c; Counts.total := Counts.total c;
       Counts.other :=
         if existsb (String.eqb action) (Counts.other c) then Counts.other c
         else Counts.other c ++ [action] |}.

(** [counts.total += 1]. *)
Definition incrementTotal (c : Counts.t) : Counts.t :=
  {| Counts.comment := Counts.comment c; Counts.like := Counts.like c;
     Counts.share := Counts.share c; Counts.total := Counts.total c + 1;
     Counts.other := Counts.other c |}.

Definition withCounts (f : Counts.t → Counts.t) (g : PostAggregate.t)
  : PostAggregate.t :=
  {| PostAggregate.latest := PostAggregate.latest g;
     PostAggregate.post := PostAggregate.post g;
     PostAggregate.counts := f (PostAggregate.counts g) |}.

Definition withLatest (n : Notification.t) (g : PostAggregate.t)
  : PostAggregate.t :=
  {| PostAggregate.latest := Some n;
     PostAggregate.post := PostAggregate.post g;
     PostAggregate.counts := PostAggregate.counts g |}.

(** The object a post gets when it is first met. *)
Definition newEntry (notification : Notification.t) : PostAggregate.t :=
  {| PostAggregate.latest := None;
     PostAggregate.post := Notification.post notification;
     PostAggregate.counts :=
       {| Counts.comment := 0; Counts.like := 0; Counts.share := 0;
          Counts.total := 0; Counts.other := [] |} |}.

(** One turn of the loop over the notifications. *)
Definition countNotification
    (notificationCountsByPost : list (string * PostAggregate.t))
    (notification : Notification.t) : list (string * PostAggregate.t) :=
  let postId := Post.id (Notification.post notification) in
  let action := Notification.action notification in
  let o1 :=
    if negb (Js.hasOwnProperty notificationCountsByPost postId)
    then Js.set notificationCountsByPost postId (newEntry notification)
    else notificationCountsByPost in
  let o2 := Js.update (withCounts (incrementAction action)) postId o1 in
  let o3 := Js.update (withCounts incrementTotal) postId o2 in
  if negb (String.eqb (Notification.action notification) NotificationAction.COMMENT)
  then o3
  else
    match Js.get o3 postId ≫= PostAggregate.latest with
    | None => Js.update (withLatest notification) postId o3
    | Some latest =>
        if Notification.createdAt latest <? Notification.createdAt notification
        then Js.update (withLatest notification) postId o3
        else o3
    end.

Definition _aggregateNotifications (notifications : list Notification.t)
  : list PostAggregate.t :=
  let notificationCountsByPost := foldl countNotification [] notifications in
  let topThreePosts :=
    Js.slice0 3
      (Js.sort
         (λ a b, Counts.total (PostAggregate.counts b)
                 - Counts.total (PostAggregate.counts a))
         (Js.values notificationCountsByPost)) in
  topThreePosts.

(** *** Sent-stamping *)

(** [$set] of [emailSentAt.<frequency>], for a frequency that is a plain
    field name. *)
Definition stamp (frequency : string) (date : Z) (n : Notification.t)
  : Notification.t :=
  {| Notification._id := Notification._id n;
     Notification.receiver := Notification.receiver n;
     Notification.post := Notification.post n;
     Notification.action := Notification.action n;
     Notification.createdAt := Notification.createdAt n;
     Notification.readAt := Notification.readAt n;
     Notification.emailSentAt := <[frequency := date]> (Notification.emailSentAt n) |}.

Definition setEmailSentAt (now : Z) (notificationIds : list string)
    (frequency : string) : M unit :=
  updateManyNotifications
    (λ n, existsb (String.eqb (Notification._id n)) notificationIds)
    (stamp frequency now).

(** *** The instant path *)

(** [$lookup] of the receiver in [users], then [$unwind]: one output per
    matching user record, none when there is no such record. *)
Definition joinReceiver (users : list User.t) (n : Notification.t)
  : list ReceivedNotification.t :=
  map (λ u, {| ReceivedNotification.notification := n;
               ReceivedNotification.receiver := u |})
    (List.filter (λ u, String.eqb (User._id u) (Notification.receiver n)) users).

Definition instantMatch (bound : Z) (n : Notification.t) : bool :=
  bool_decide (Notification.readAt n = None)
  && bool_decide (Notification.emailSentAt n !! "instant" = None)
  && (Notification.createdAt n <? bound).

Definition instantPipeline (bound : Z) (db : DB.t) : list ReceivedNotification.t :=
  flat_map (joinReceiver (DB.users db))
    (List.filter (instantMatch bound) (DB.notifications db)).

Definition _findInstantNotifications (this : t) (now : Z)
  : M (list ReceivedNotification.t) :=
  let* notifications :=
    aggregate
      (instantPipeline
         (DateHelper.subtractMinutes now (instantUnreadLookbackInterval this))) in
  let* _ :=
    setEmailSentAt now
      (map (λ notification,
            Notification._id (ReceivedNotification.notification notification))
         notifications)
      EmailFrequency.INSTANT in
  ret notifications.

(** *** The digest path *)

Definition intervalDays (frequency : string) : option Z :=
  if String.eqb frequency EmailFrequency.DAILY then Some 1
  else if String.eqb frequency EmailFrequency.WEEKLY then Some 7
  else if String.eqb frequency EmailFrequency.BIWEEKLY then Some 14
  else None.

(** [$group] by receiver with [$push]: a group per receiver, its
    notifications in the order of the stream.  The store does not fix the
    order of the groups; they are kept in order of first appearance. *)
Definition groupByReceiver (matched : list Notification.t)
  : list (string * list Notification.t) :=
  foldl (λ groups n,
         if Js.hasOwnProperty groups (Notification.receiver n)
         then Js.update (λ l, l ++ [n]) (Notification.receiver n) groups
         else groups ++ [(Notification.receiver n, [n])])
    [] matched.

(** [$lookup] of the group's receiver in [users], then [$unwind]. *)
Definition joinGroup (users : list User.t) (g : string * list Notification.t)
  : list ReceiverGroup.t :=
  map (λ u, {| ReceiverGroup._id := fst g;
               ReceiverGroup.notifications := snd g;
               ReceiverGroup.receiver := u |})
    (List.filter (λ u, String.eqb (User._id u) (fst g)) users).

Section Digest.
(** What the store answers to [createdAt > d] when [d] is not a valid
    date; nothing below depends on the answer. *)
Variable gtInvalidDate : Z → bool.

(** [createdAt: { $gt: bound }]. *)
Definition createdAfter (bound : option Z) (n : Notification.t) : bool :=
  match bound with
  | Some b => b <? Notification.createdAt n
  | None => gtInvalidDate (Notification.createdAt n)
  end.

(** [emailSentAt.<frequency>: null] and the bound on [createdAt], for a
    frequency that is a plain field name. *)
Definition digestMatch (frequency : string) (bound : option Z)
    (n : Notification.t) : bool :=
  bool_decide (Notification.emailSentAt n !! frequency = None)
  && createdAfter bound n.

(** The [$match] stage of the digest query. *)
Definition digestSelection (frequency : string) (bound : option Z) (db : DB.t)
  : list Notification.t :=
  List.filter (digestMatch frequency bound) (DB.notifications db).

Definition digestPipeline (frequency : string) (bound : option Z) (db : DB.t)
  : list ReceiverGroup.t :=
  flat_map (joinGroup (DB.users db))
    (groupByReceiver (digestSelection frequency bound db)).

(** One turn of the loop over the receivers' cursor. *)
Definition pushDigest
    (acc : list Digest.t * list string) (receiver : ReceiverGroup.t)
  : list Digest.t * list string :=
  let topThreePosts :=
    _aggregateNotifications (ReceiverGroup.notifications receiver) in
  (fst acc ++ [{| Digest.posts := topThreePosts;
                  Digest.receiver := ReceiverGroup.receiver receiver |}],
   snd acc ++ map Notification._id (ReceiverGroup.notifications receiver)).

Definition _findDigestNotifications (now : Z) (frequency : string)
  : M (list Digest.t) :=
  let intervalDays := intervalDays frequency in
  let* notificationsByReceiverCursor :=
    aggregate
      (digestPipeline frequency (DateHelper.subtractDays now intervalDays)) in
  let acc := foldl pushDigest ([], []) notificationsByReceiverCursor in
  let digests := fst acc in
  let processedNotificationIds := snd acc in
  let* _ := setEmailSentAt now processedNotificationIds frequency in
  ret digests.


End Digest.

(** *** Unread direct messages *)

Definition threadMatch (bound : Z) (thread : ThreadDoc.t) : bool :=
  existsb (λ p, 0 <? Participant.newMessages p) (ThreadDoc.participants thread)
  && existsb (λ p, Participant.lastAccess p <? bound)
       (ThreadDoc.participants thread)
  && existsb (λ p, existsb (String.eqb (Participant.status p))
                     [MessageThreadStatus.ACCEPTED; MessageThreadStatus.PENDING])
       (ThreadDoc.participants thread).

(** [$lookup] of [participants.id] in [users]. *)
Definition joinUsers (users : list User.t) (thread : ThreadDoc.t) : Thread.t :=
  {| Thread._id := ThreadDoc._id thread;
     Thread.participants := ThreadDoc.participants thread;
     Thread.users :=
       List.filter
         (λ u, existsb (λ p, String.eqb (Participant.id p) (User._id u))
                 (ThreadDoc.participants thread))
         users |}.

Definition threadsPipeline (bound : Z) (db : DB.t) : list Thread.t :=
  map (joinUsers (DB.users db)) (List.filter (threadMatch bound) (DB.threads db)).

(** [$match] on the thread ids, [$sort] by creation date, [$group] by
    thread with [$last]: the group of a thread holds its last message in
    the sorted stream.  Groups are kept in order of first appearance. *)
Definition messagesPipeline (threadIds : list string) (db : DB.t)
  : list MessageGroup.t :=
  let matched :=
    List.filter (λ m, existsb (String.eqb (Message.threadId m)) threadIds)
      (DB.messages db) in
  let sorted :=
    Js.sort (λ a b, Message.createdAt a - Message.createdAt b) matched in
  map (λ g, {| MessageGroup._id := fst g; MessageGroup.latestMessage := snd g |})
    (foldl (λ groups m, Js.set groups (Message.threadId m) m) [] sorted).

(** The two [find] calls and the guard that follows them. *)
Definition resolvePair (participants : list Participant.t)
  : option (Participant.t * Participant.t) :=
  let sender := find (λ p, Participant.newMessages p =? 0) participants in
  let receiver := find (λ p, 0 <? Participant.newMessages p) participants in
  match sender, receiver with
  | Some sender, Some receiver => Some (sender, receiver)
  | _, _ => None
  end.

(** One turn of the loop over the messages' cursor: [None] is
    [continue], [Some] is the element pushed. *)
Definition processMessage (threadsObject : gmap string Thread.t)
    (message : MessageGroup.t) : Js.outcome (option UnreadMessage.t) :=
  match threadsObject !! MessageGroup._id message with
  | None => Thrown Js.TypeError
  | Some thread =>
      match resolvePair (Thread.participants thread) with
      | None => Returned None
      | Some (sender, receiver) =>
          let receiverUser :=
            find (λ user, String.eqb (User._id user) (Participant.id receiver))
              (Thread.users thread) in
          match receiverUser with
          | None => Thrown Js.TypeError
          | Some receiverUser =>
              let notifyPrefs := User.notifyPrefs receiverUser in
              let email := User.email receiverUser in
              let pushed :=
                Returned
                  (Some {| UnreadMessage.sender := sender;
                           UnreadMessage.receiver :=
                             {| Receiver.participant := receiver;
                                Receiver.email := email |};
                           UnreadMessage.message :=
                             MessageGroup.latestMessage message |}) in
              match notifyPrefs with
              | None => pushed
              | Some prefs =>
                  match NotifyPrefs.instant prefs with
                  | None => Thrown Js.TypeError
                  | Some instant =>
                      if negb (InstantPrefs.message instant)
                      then Returned None
                      else pushed
                  end
              end
          end
      end
  end.

Fixpoint drainCursor (threadsObject : gmap string Thread.t)
    (cursor : list MessageGroup.t) (messages : list UnreadMessage.t)
  : Js.outcome (list UnreadMessage.t) :=
  match cursor with
  | [] => Returned messages
  | message :: rest =>
      match processMessage threadsObject message with
      | Thrown e => Thrown e
      | Returned None => drainCursor threadsObject rest messages
      | Returned (Some m) => drainCursor threadsObject rest (messages ++ [m])
      end
  end.

Definition findUnreadDirectMessages (this : t) (now : Z)
  : M (list UnreadMessage.t) :=
  let* threads :=
    aggregate
      (threadsPipeline
         (DateHelper.subtractMinutes now (instantUnreadLookbackInterval this))) in
  let threadIds := map Thread._id threads in
  let threadsObject : gmap string Thread.t :=
    foldl (λ accumulator thread, <[Thread._id thread := thread]> accumulator)
      ∅ threads in
  let* messagesCursor := aggregate (messagesPipeline threadIds) in
  lift (drainCursor threadsObject messagesCursor []).
End DatabaseHelper.

(** ** Predicates used in the statements *)

Abbreviation total g := (Counts.total (PostAggregate.counts g)).
Abbreviation postIdOf n := (Post.id (Notification.post n)).

(** The total of a post-aggregate is the sum of its three counters. *)
Definition balanced (g : PostAggregate.t) : Prop :=
  total g
  = Counts.comment (PostAggregate.counts g)
    + Counts.like (PostAggregate.counts g)
    + Counts.share (PostAggregate.counts g).

(** [n] is a comment-kind notification on the post [k]. *)
Definition commentOn (k : string) (n : Notification.t) : Prop :=
  postIdOf n = k ∧ Notification.action n = NotificationAction.COMMENT.

(** [latest] is what the loop holds for post [k] after the notifications
    [seen]: nothing when none of them is a comment on [k], otherwise one of
    the comments on [k], with no comment on [k] created later. *)
Definition latestOf (k : string) (seen : list Notification.t)
    (latest : option Notification.t) : Prop :=
  match latest with
  | None => ∀ m, In m seen → ¬ commentOn k m
  | Some n =>
      In n seen ∧ commentOn k n
      ∧ ∀ m, In m seen → commentOn k m →
             Notification.createdAt m ≤ Notification.createdAt n
  end.

(** The loop invariant of the aggregator: one entry per key, an entry for
    every post seen, and every entry keyed by its post and holding the
    latest comment seen. *)
Definition aggregated (seen : list Notification.t)
    (o : list (string * PostAggregate.t)) : Prop :=
  NoDup (map fst o)
  ∧ (∀ n, In n seen → Js.hasOwnProperty o (postIdOf n) = true)
  ∧ (∀ k g, In (k, g) o →
            Post.id (PostAggregate.post g) = k
            ∧ latestOf k seen (PostAggregate.latest g)).

(** The digest the loop pushes for a receiver's group, and the identifiers
    it records as processed. *)
Abbreviation digestOf g :=
  {| Digest.posts :=
       DatabaseHelper._aggregateNotifications (ReceiverGroup.notifications g);
     Digest.receiver := ReceiverGroup.receiver g |}.

Abbreviation idsOf g := (map Notification._id (ReceiverGroup.notifications g)).

(** The bound of the instant queries, and the identifiers the instant
    finder hands to the stamping. *)
Abbreviation instantBound this now :=
  (DateHelper.subtractMinutes now (DatabaseHelper.instantUnreadLookbackInterval this)).

Abbreviation selectedIds l :=
  (map (λ x, Notification._id (ReceivedNotification.notification x)) l).

(** A method that leaves the store as it found it, whether it returns or
    throws. *)
Definition readOnly {A} (m : M A) : Prop := ∀ db : DB.t, snd (m db) = db.

(** *** Counting the notifications of a post *)

Definition onPost (k : string) (n : Notification.t) : bool :=
  String.eqb (postIdOf n) k.

Definition ofKind (action : string) (n : Notification.t) : bool :=
  String.eqb (Notification.action n) action.

(** The number of notifications that satisfy [p]. *)
Definition tally (p : Notification.t → bool) (ns : list Notification.t) : Z :=
  Z.of_nat (length (List.filter p ns)).

(** What the entries of the aggregator's object hold after the
    notifications [seen]: the post of the first notification met for the
    key, and counters that tally the notifications on that post, one whose
    action is the string [total] being counted twice in the total. *)
Definition tallied (seen : list Notification.t)
    (o : list (string * PostAggregate.t)) : Prop :=
  ∀ k g, In (k, g) o →
    (∃ first, find (onPost k) seen = Some first
              ∧ PostAggregate.post g = Notification.post first)
    ∧ Counts.comment (PostAggregate.counts g)
      = tally (λ n, onPost k n && ofKind "comment" n) seen
    ∧ Counts.like (PostAggregate.counts g)
      = tally (λ n, onPost k n && ofKind "like" n) seen
    ∧ Counts.share (PostAggregate.counts g)
      = tally (λ n, onPost k n && ofKind "share" n) seen
    ∧ total g
      = tally (onPost k) seen
        + tally (λ n, onPost k n && ofKind "total" n) seen.

(** The post identifiers of a list of post-aggregates. *)
Abbreviation postIds l := (map (λ g, Post.id (PostAggregate.post g)) l).

(** The thread a returned unread message belongs to. *)
Abbreviation threadOf m := (Message.threadId (UnreadMessage.message m)).

(** The four tiers of [EmailFrequency]. *)
Definition tiers : list string :=
  [EmailFrequency.INSTANT; EmailFrequency.DAILY; EmailFrequency.WEEKLY;
   EmailFrequency.BIWEEKLY].

(** A key on which the aggregator's object behaves as a dictionary: any
    string but [__proto__], whose assignment sets the prototype instead of
    making an entry, and [hasOwnProperty], whose entry shadows the method
    the loop calls on its next turn. *)
Definition ordinaryKey (k : string) : Prop :=
  k ≠ "__proto__" ∧ k ≠ "hasOwnProperty".

(** The user has not turned instant notifications for direct messages off:
    the record has no preferences, or the flag of the instant preferences is
    set. *)
Definition notifiable (u : User.t) : Prop :=
  User.notifyPrefs u = None
  ∨ ∃ prefs instant,
      User.notifyPrefs u = Some prefs
      ∧ NotifyPrefs.instant prefs = Some instant
      ∧ InstantPrefs.message instant = true.

(** The two participants of a thread taken as sender and receiver, one way
    or the other. *)
Definition paired (p1 p2 sender receiver : Participant.t) : Prop :=
  sender = p1 ∧ receiver = p2 ∨ sender = p2 ∧ receiver = p1.

(** ** Sample data *)

Module Example.
Definition postA : Post.t := {| Post.id := "5f1a"; Post.title := "A" |}.
Definition postB : Post.t := {| Post.id := "5f1b"; Post.title := "B" |}.

Definition notify (_id : string) (post : Post.t) (action : string)
    (createdAt : Z) : Notification.t :=
  {| Notification._id := _id;
     Notification.receiver := "R";
     Notification.post := post;
     Notification.action := action;
     Notification.createdAt := createdAt;
     Notification.readAt := None;
     Notification.emailSentAt := ∅ |}.

(** Three comments on one post, created at 1, 3 and 2. *)
Definition C1 : Notification.t := notify "c1" postA "comment" 1.
Definition C2 : Notification.t := notify "c2" postA "comment" 3.
Definition C3 : Notification.t := notify "c3" postA "comment" 2.

Definition aggregateC : PostAggregate.t :=
  {| PostAggregate.latest := Some C2;
     PostAggregate.post := postA;
     PostAggregate.counts :=
       {| Counts.comment := 3; Counts.like := 0; Counts.share := 0;
          Counts.total := 3; Counts.other := [] |} |}.

(** Three likes and two shares on post A, two comments on post B. *)
Definition likesAndShares : list Notification.t :=
  [ notify "n1" postA "like" 1; notify "n2" postB "comment" 4;
    notify "n3" postA "share" 5; notify "n4" postA "like" 6;
    notify "n5" postB "comment" 10; notify "n6" postA "like" 11;
    notify "n7" postA "share" 12 ].

Definition aggregateA : PostAggregate.t :=
  {| PostAggregate.latest := None;
     PostAggregate.post := postA;
     PostAggregate.counts :=
       {| Counts.comment := 0; Counts.like := 3; Counts.share := 2;
          Counts.total := 5; Counts.other := [] |} |}.

Definition userR : User.t :=
  {| User._id := "R"; User.email := "r@example.org"; User.notifyPrefs := None |}.

(** A helper with a lookback interval of five minutes. *)
Definition helper : DatabaseHelper.t :=
  {| DatabaseHelper.uri := "mongodb://localhost";
     DatabaseHelper.dbName := "fightpandemics";
     DatabaseHelper.instantUnreadLookbackInterval := 5 |}.

(** A store with one unread, unstamped notification, created at 1. *)
Definition oneNotification : DB.t :=
  {| DB.threads := [];
     DB.messages := [];
     DB.notifications := [C1];
     DB.users := [userR] |}.

(** A clock reading and the dates six and seven days before it. *)
Definition now : Z := 1000000000000.
Definition sixDaysAgo : Notification.t :=
  notify "n6d" postA "like" (now - 6 * 86400000).
Definition sevenDaysAgo : Notification.t :=
  notify "n7d" postA "like" (now - 7 * 86400000).
Definition lastWeek : DB.t :=
  {| DB.threads := [];
     DB.messages := [];
     DB.notifications := [sevenDaysAgo; sixDaysAgo];
     DB.users := [userR] |}.

(** Two direct-message threads.  In the first, P1 has read everything and
    P2 has three unread messages.  In the second, Q2 has two unread messages
    and no user record. *)
Definition participant (id : string) (newMessages : Z) : Participant.t :=
  {| Participant.id := id;
     Participant.newMessages := newMessages;
     Participant.lastAccess := 0;
     Participant.status := "accepted" |}.

Definition P1 : Participant.t := participant "U1" 0.
Definition P2 : Participant.t := participant "U2" 3.
Definition Q1 : Participant.t := participant "U3" 0.
Definition Q2 : Participant.t := participant "U4" 2.

Definition user (_id email : string) : User.t :=
  {| User._id := _id; User.email := email; User.notifyPrefs := None |}.

Definition thread1 : ThreadDoc.t :=
  {| ThreadDoc._id := "T1"; ThreadDoc.participants := [P1; P2] |}.
Definition thread2 : ThreadDoc.t :=
  {| ThreadDoc._id := "T2"; ThreadDoc.participants := [Q1; Q2] |}.

Definition text (_id threadId : string) (createdAt : Z) : Message.t :=
  {| Message._id := _id; Message.threadId := threadId;
     Message.createdAt := createdAt; Message.content := "hello" |}.

Definition inbox : DB.t :=
  {| DB.threads := [thread1];
     DB.messages := [text "M1" "T1" 10; text "M2" "T1" 20];
     DB.notifications := [];
     DB.users := [user "U1" "u1@example.org"; user "U2" "u2@example.org";
                  user "U3" "u3@example.org"] |}.

Definition inboxWithOrphan : DB.t :=
  {| DB.threads := [thread1; thread2];
     DB.messages := [text "M1" "T1" 10; text "M2" "T1" 20; text "M3" "T2" 30];
     DB.notifications := [];
     DB.users := [user "U1" "u1@example.org"; user "U2" "u2@example.org";
                  user "U3" "u3@example.org"] |}.

Definition joined1 : Thread.t :=
  {| Thread._id := "T1"; Thread.participants := [P1; P2];
     Thread.users := [user "U1" "u1@example.org"; user "U2" "u2@example.org"] |}.

Definition latest1 : MessageGroup.t :=
  {| MessageGroup._id := "T1"; MessageGroup.latestMessage := text "M2" "T1" 20 |}.

Definition unread1 : UnreadMessage.t :=
  {| UnreadMessage.sender := P1;
     UnreadMessage.receiver :=
       {| Receiver.participant := P2; Receiver.email := "u2@example.org" |};
     UnreadMessage.message := text "M2" "T1" 20 |}.

Definition aggregateB : PostAggregate.t :=
  {| PostAggregate.latest := Some (notify "n5" postB "comment" 10);
     PostAggregate.post := postB;
     PostAggregate.counts :=
       {| Counts.comment := 2; Counts.like := 0; Counts.share := 0;
          Counts.total := 2; Counts.other := [] |} |}.
End Example.

(** ** More sample data *)

Module Sample.
Definition postC : Post.t := {| Post.id := "5f1c"; Post.title := "C" |}.
Definition postD : Post.t := {| Post.id := "5f1d"; Post.title := "D" |}.

(** Four posts: three notifications on A, two on B, two on C, one on D. *)
Definition lonely : Notification.t := Example.notify "m8" postD "like" 8.

Definition fourPosts : list Notification.t :=
  [ Example.notify "m1" Example.postA "like" 1;
    Example.notify "m2" Example.postB "comment" 2;
    Example.notify "m3" postC "like" 3;
    Example.notify "m4" Example.postA "share" 4;
    Example.notify "m5" Example.postB "like" 5;
    Example.notify "m6" postC "share" 6;
    Example.notify "m7" Example.postA "like" 7;
    lonely ].

Definition aggregateOfC : PostAggregate.t :=
  {| PostAggregate.latest := None;
     PostAggregate.post := postC;
     PostAggregate.counts :=
       {| Counts.comment := 0; Counts.like := 1; Counts.share := 1;
          Counts.total := 2; Counts.other := [] |} |}.

(** Two receivers.  R has two notifications and S has one, all unread,
    without a stamp and created an hour before [Example.now]. *)
Definition userS : User.t := Example.user "S" "s@example.org".

Definition notifyTo (receiver _id : string) (post : Post.t) (action : string)
  : Notification.t :=
  {| Notification._id := _id;
     Notification.receiver := receiver;
     Notification.post := post;
     Notification.action := action;
     Notification.createdAt := Example.now - 3600000;
     Notification.readAt := None;
     Notification.emailSentAt := ∅ |}.

Definition r1 : Notification.t := notifyTo "R" "r1" Example.postA "like".
Definition s1 : Notification.t := notifyTo "S" "s1" Example.postB "comment".
Definition r2 : Notification.t := notifyTo "R" "r2" Example.postB "like".

Definition twoReceivers : DB.t :=
  {| DB.threads := [];
     DB.messages := [];
     DB.notifications := [r1; s1; r2];
     DB.users := [Example.userR; userS] |}.

(** A thread in which both participants have read everything, with its
    messages, next to the thread of [Example.inbox] with the unread count of
    its receiver put back to zero. *)
Definition readThread : ThreadDoc.t :=
  {| ThreadDoc._id := "T3";
     ThreadDoc.participants := [Example.P1; Example.Q1] |}.

Definition readAgain : ThreadDoc.t :=
  {| ThreadDoc._id := "T1";
     ThreadDoc.participants := [Example.P1; Example.participant "U2" 0] |}.

Definition allRead : DB.t :=
  {| DB.threads := [readThread; readAgain];
     DB.messages := [Example.text "M1" "T1" 10; Example.text "M4" "T3" 40;
                     Example.text "M2" "T1" 20];
     DB.notifications := [];
     DB.users := DB.users Example.inbox |}.
End Sample.

(** * Properties *)

(** ** Arrays: sorting and slicing *)

Section ArrayFacts.
Context {A : Type}.
Implicit Types (cmp : A → A → Z) (l : list A).

Lemma insertBy_perm cmp x l : Permutation (Js.insertBy cmp x l) (x :: l).
Proof.
  induction l as [|y l IH]; simpl; [reflexivity|].
  destruct (cmp x y <=? 0); [reflexivity|].
  rewrite IH. apply perm_swap.
Qed.

Lemma sort_perm cmp l : Permutation (Js.sort cmp l) l.
Proof.
  induction l as [|x l IH]; simpl; [reflexivity|].
  unfold Js.sort in *. simpl. rewrite insertBy_perm. now constructor.
Qed.

Lemma sort_In cmp l x : In x (Js.sort cmp l) ↔ In x l.
Proof.
  split; apply Permutation_in; [|symmetry]; apply sort_perm.
Qed.

Lemma slice0_In n l x : In x (Js.slice0 n l) → In x l.
Proof.
  unfold Js.slice0. intros H.
  rewrite <- (firstn_skipn n l). apply in_or_app. now left.
Qed.

Lemma slice0_length n l : (length (Js.slice0 n l) ≤ n)%nat.
Proof. apply firstn_le_length. Qed.

Lemma slice0_sorted (R : A → A → Prop) n l :
  StronglySorted R l → StronglySorted R (Js.slice0 n l).
Proof.
  unfold Js.slice0. revert n.
  induction l as [|x l IH]; intros [|n] H; simpl; try constructor.
  - apply IH. now inversion H.
  - inversion H as [|? ? _ Hall]; subst.
    rewrite Forall_forall in *. intros y Hy. apply Hall.
    apply list_elem_of_In, (slice0_In n), list_elem_of_In, Hy.
Qed.

(** Sorting with [(a, b) => key(b) - key(a)] puts the keys in descending
    order. *)
Section Descending.
Variable key : A → Z.

Local Abbreviation descending := (λ a b : A, key b ≤ key a).

Lemma insertBy_descending x l :
  StronglySorted descending l →
  StronglySorted descending (Js.insertBy (λ a b, key b - key a) x l).
Proof.
  induction l as [|y l IH]; intros H; simpl.
  - repeat constructor.
  - inversion H as [|? ? Hl Hall]; subst.
    destruct (Z.leb_spec (key y - key x) 0) as [Hle|Hgt].
    + constructor; [exact H|].
      constructor; [lia|].
      rewrite Forall_forall in *. intros z Hz.
      specialize (Hall z Hz). simpl in *. lia.
    + constructor; [now apply IH|].
      rewrite Forall_forall in *. intros z Hz.
      apply list_elem_of_In in Hz.
      apply (Permutation_in _ (insertBy_perm _ x l)) in Hz.
      destruct Hz as [<-|Hz].
      * lia.
      * apply Hall. now apply list_elem_of_In.
Qed.

Lemma sort_descending l :
  StronglySorted descending (Js.sort (λ a b, key b - key a) l).
Proof.
  induction l as [|x l IH]; [constructor|].
  unfold Js.sort in *. simpl. now apply insertBy_descending.
Qed.
End Descending.
End ArrayFacts.

(** ** Objects *)

Section ObjectFacts.
Context {V : Type}.
Implicit Types (o : list (string * V)) (k : string).

Lemma hasOwnProperty_true o k :
  Js.hasOwnProperty o k = true ↔ ∃ v, In (k, v) o.
Proof.
  unfold Js.hasOwnProperty. rewrite existsb_exists. split.
  - intros ([k' v] & Hin & Heq). simpl in Heq.
    apply String.eqb_eq in Heq. subst. eauto.
  - intros [v Hin]. exists (k, v). split; [exact Hin|apply String.eqb_refl].
Qed.

Lemma hasOwnProperty_false o k v :
  Js.hasOwnProperty o k = false → ¬ In (k, v) o.
Proof.
  intros Hf Hin.
  assert (Js.hasOwnProperty o k = true) by (apply hasOwnProperty_true; eauto).
  congruence.
Qed.

Lemma update_In f k o k' v' :
  In (k', v') (Js.update f k o) ↔
  (k' ≠ k ∧ In (k', v') o) ∨ (k' = k ∧ ∃ v, In (k, v) o ∧ v' = f v).
Proof.
  unfold Js.update. rewrite in_map_iff. split.
  - intros ([k0 v0] & Heq & Hin). simpl in Heq.
    destruct (String.eqb_spec k0 k) as [->|Hne]; inversion Heq; subst; eauto.
  - intros [[Hne Hin]|[-> (v & Hin & ->)]].
    + exists (k', v'). split; [|exact Hin]. simpl.
      now destruct (String.eqb_spec k' k).
    + exists (k, v). split; [|exact Hin]. simpl.
      now rewrite String.eqb_refl.
Qed.

Lemma update_keys f k o : map fst (Js.update f k o) = map fst o.
Proof.
  unfold Js.update. rewrite map_map. apply map_ext.
  intros [k0 v0]. simpl. now destruct (String.eqb k0 k).
Qed.

Lemma get_In o k v : Js.get o k = Some v → In (k, v) o.
Proof.
  unfold Js.get. destruct (find _ o) as [[k0 v0]|] eqn:Hf; [|discriminate].
  simpl. intros [= <-]. apply find_some in Hf as [Hin Heq].
  simpl in Heq. apply String.eqb_eq in Heq. now subst.
Qed.

Lemma get_None o k v : Js.get o k = None → ¬ In (k, v) o.
Proof.
  unfold Js.get. destruct (find _ o) as [kv|] eqn:Hf; [discriminate|].
  intros _ Hin. apply (find_none _ _ Hf) in Hin. simpl in Hin.
  now rewrite String.eqb_refl in Hin.
Qed.

Lemma NoDup_keys_unique o k v v' :
  NoDup (map fst o) → In (k, v) o → In (k, v') o → v = v'.
Proof.
  induction o as [|[k0 v0] o IH]; simpl; [tauto|].
  intros Hnd. apply NoDup_cons in Hnd as [Hnotin Hnd].
  intros [Heq|Hin] [Heq'|Hin'].
  - congruence.
  - inversion Heq; subst. exfalso. apply Hnotin, list_elem_of_In.
    apply in_map_iff. now exists (k, v').
  - inversion Heq'; subst. exfalso. apply Hnotin, list_elem_of_In.
    apply in_map_iff. now exists (k, v).
  - now apply IH.
Qed.

Lemma values_In o v : In v (Js.values o) → ∃ k, In (k, v) o.
Proof.
  unfold Js.values. rewrite in_app_iff, !in_map_iff.
  intros [([k v'] & Heq & Hin)|([k v'] & Heq & Hin)]; simpl in Heq; subst;
    exists k.
  - apply sort_In, filter_In in Hin. tauto.
  - apply filter_In in Hin. tauto.
Qed.
End ObjectFacts.

(** ** The connection string *)

Lemma append_nonempty (a b : string) : b ≠ "" → a +:+ b ≠ "".
Proof. destruct a; simpl; [tauto|discriminate]. Qed.

(** C10. The connection string is the protocol, ["://"], a credentials
    segment, the host, a port segment and a suffix.  The credentials segment
    is [username:password@] exactly when username and password are both
    truthy and is empty otherwise (so a username without a password, or the
    reverse, leaves no trace); the port segment is [:port] exactly when the
    port is truthy and is empty otherwise; the suffix is
    [?retryWrites=true&w=majority] exactly when the write-concern flag is
    truthy and is empty otherwise. *)
Theorem C10_buildUri_segments (config : Config.t) :
  ∃ credentials port suffix : string,
    DatabaseHelper._buildUri config =
      Js.toString (Config.protocol config) +:+ "://" +:+ credentials
      +:+ Js.toString (Config.host config) +:+ port +:+ suffix
    ∧ (credentials =
         Js.toString (Config.username config) +:+ ":"
         +:+ Js.toString (Config.password config) +:+ "@"
       ↔ Js.truthy (Config.username config) = true
         ∧ Js.truthy (Config.password config) = true)
    ∧ (credentials = ""
       ↔ ¬ (Js.truthy (Config.username config) = true
            ∧ Js.truthy (Config.password config) = true))
    ∧ (port = ":" +:+ Js.toString (Config.port config)
       ↔ Js.truthy (Config.port config) = true)
    ∧ (port = "" ↔ Js.truthy (Config.port config) = false)
    ∧ (suffix = "?retryWrites=true&w=majority"
       ↔ Js.truthy (Config.retryWrites config) = true)
    ∧ (suffix = "" ↔ Js.truthy (Config.retryWrites config) = false).
Proof.
  unfold DatabaseHelper._buildUri.
  assert (Hcred : Js.toString (Config.username config) +:+ ":"
                  +:+ Js.toString (Config.password config) +:+ "@" ≠ "").
  { apply append_nonempty. discriminate. }
  do 3 eexists. split; [reflexivity|].
  destruct (Js.truthy (Config.username config)),
    (Js.truthy (Config.password config)),
    (Js.truthy (Config.port config)),
    (Js.truthy (Config.retryWrites config)); simpl;
    repeat split; try tauto; try congruence; try discriminate;
    intros; try (exfalso; apply Hcred; congruence); intuition congruence.
Qed.

(** ** The digest aggregator *)

Lemma aggregate_In (notifications : list Notification.t) g :
  In g (DatabaseHelper._aggregateNotifications notifications) →
  ∃ k, In (k, g) (foldl DatabaseHelper.countNotification [] notifications).
Proof.
  unfold DatabaseHelper._aggregateNotifications. intros H.
  apply slice0_In, sort_In in H. now apply values_In.
Qed.

(** C3. Whatever the notifications, the aggregator returns at most three
    post-aggregates, in descending order of [counts.total]. *)
Theorem C3_top_three_sorted (notifications : list Notification.t) :
  (length (DatabaseHelper._aggregateNotifications notifications) ≤ 3)%nat
  ∧ StronglySorted (λ a b, total b ≤ total a)
      (DatabaseHelper._aggregateNotifications notifications).
Proof.
  split; [apply slice0_length|].
  unfold DatabaseHelper._aggregateNotifications.
  apply slice0_sorted.
  apply (sort_descending (λ g, total g)).
Qed.

(** *** The counters *)

Lemma incremented_balanced action (g : PostAggregate.t) :
  action = NotificationAction.COMMENT ∨ action = NotificationAction.LIKE
  ∨ action = NotificationAction.SHARE →
  balanced g →
  balanced
    (DatabaseHelper.withCounts DatabaseHelper.incrementTotal
       (DatabaseHelper.withCounts (DatabaseHelper.incrementAction action) g)).
Proof.
  unfold balanced. intros [-> | [-> | ->]] H; simpl; lia.
Qed.

Lemma withLatest_balanced n g :
  balanced g → balanced (DatabaseHelper.withLatest n g).
Proof. unfold balanced. simpl. tauto. Qed.

(** The turn of the loop, with the entry of the post made sure of first. *)
Lemma countNotification_unfold o n :
  ∃ o1,
    (o1 = o ∧ Js.hasOwnProperty o (postIdOf n) = true
     ∨ o1 = o ++ [(postIdOf n, DatabaseHelper.newEntry n)]
       ∧ Js.hasOwnProperty o (postIdOf n) = false)
    ∧ DatabaseHelper.countNotification o n
      = let o3 :=
          Js.update (DatabaseHelper.withCounts DatabaseHelper.incrementTotal)
            (postIdOf n)
            (Js.update
               (DatabaseHelper.withCounts
                  (DatabaseHelper.incrementAction (Notification.action n)))
               (postIdOf n) o1) in
        if negb (String.eqb (Notification.action n) NotificationAction.COMMENT)
        then o3
        else match Js.get o3 (postIdOf n) ≫= PostAggregate.latest with
             | None => Js.update (DatabaseHelper.withLatest n) (postIdOf n) o3
             | Some latest =>
                 if Notification.createdAt latest <? Notification.createdAt n
                 then Js.update (DatabaseHelper.withLatest n) (postIdOf n) o3
                 else o3
             end.
Proof.
  unfold DatabaseHelper.countNotification, Js.set.
  destruct (Js.hasOwnProperty o (postIdOf n)) eqn:Hhas; cbn [negb];
    eexists; (split; [|reflexivity]); [left|right]; split; reflexivity.
Qed.

Lemma countNotification_balanced o n :
  Notification.action n = NotificationAction.COMMENT
  ∨ Notification.action n = NotificationAction.LIKE
  ∨ Notification.action n = NotificationAction.SHARE →
  (∀ k g, In (k, g) o → balanced g) →
  ∀ k g, In (k, g) (DatabaseHelper.countNotification o n) → balanced g.
Proof.
  intros Hact Ho k g.
  destruct (countNotification_unfold o n) as (o1 & Ho1 & ->).
  assert (H1 : ∀ k g, In (k, g) o1 → balanced g).
  { intros k' g'. destruct Ho1 as [[-> _]|[-> _]]; [apply Ho|].
    rewrite in_app_iff. intros [H|[[= <- <-]|[]]]; [eapply Ho, H|].
    unfold balanced. simpl. lia. }
  set (o3 := Js.update _ _ (Js.update _ _ o1)).
  assert (H3 : ∀ k g, In (k, g) o3 → balanced g).
  { subst o3. intros k' g'. rewrite update_In.
    intros [[Hne H]|[-> (v & H & ->)]]; rewrite update_In in H.
    - destruct H as [[_ H]|[Heq _]]; [eapply H1, H|tauto].
    - destruct H as [[Hne _]|[_ (v0 & H & ->)]]; [tauto|].
      apply incremented_balanced; [exact Hact|eapply H1, H]. }
  assert (HL : ∀ k g, In (k, g) (Js.update (DatabaseHelper.withLatest n)
                                     (postIdOf n) o3) → balanced g).
  { intros k' g'. rewrite update_In.
    intros [[_ H]|[_ (v & H & ->)]]; [eapply H3, H|].
    apply withLatest_balanced. eapply H3, H. }
  cbv zeta. fold o3.
  destruct (negb _); [apply H3|].
  destruct (Js.get o3 (postIdOf n) ≫= PostAggregate.latest) as [latest|];
    [|apply HL].
  destruct (_ <? _); [apply HL|apply H3].
Qed.

Lemma foldl_countNotification_balanced notifications o :
  (∀ n, In n notifications →
        Notification.action n = NotificationAction.COMMENT
        ∨ Notification.action n = NotificationAction.LIKE
        ∨ Notification.action n = NotificationAction.SHARE) →
  (∀ k g, In (k, g) o → balanced g) →
  ∀ k g, In (k, g) (foldl DatabaseHelper.countNotification o notifications) →
         balanced g.
Proof.
  revert o. induction notifications as [|n ns IH]; intros o Hact Ho; simpl.
  - exact Ho.
  - apply IH.
    + intros m Hm. apply Hact. now right.
    + apply countNotification_balanced; [|exact Ho]. apply Hact. now left.
Qed.

(** C4. When every notification's action is comment, like or share, every
    post-aggregate the aggregator returns has
    [counts.total = counts.comment + counts.like + counts.share]. *)
Theorem C4_total_is_sum (notifications : list Notification.t) :
  (∀ n, In n notifications →
        Notification.action n = NotificationAction.COMMENT
        ∨ Notification.action n = NotificationAction.LIKE
        ∨ Notification.action n = NotificationAction.SHARE) →
  ∀ g, In g (DatabaseHelper._aggregateNotifications notifications) →
       total g
       = Counts.comment (PostAggregate.counts g)
         + Counts.like (PostAggregate.counts g)
         + Counts.share (PostAggregate.counts g).
Proof.
  intros Hact g Hg. apply aggregate_In in Hg as [k Hk].
  eapply (foldl_countNotification_balanced notifications []); eauto.
  intros ? ? [].
Qed.

Lemma C4_total_is_sum_witness :
  total Example.aggregateA
  = Counts.comment (PostAggregate.counts Example.aggregateA)
    + Counts.like (PostAggregate.counts Example.aggregateA)
    + Counts.share (PostAggregate.counts Example.aggregateA).
Proof.
  apply (C4_total_is_sum Example.likesAndShares).
  - intros n Hn. simpl in Hn.
    repeat (destruct Hn as [<-|Hn]; [vm_compute; tauto|]). destruct Hn.
  - vm_compute. left. reflexivity.
Defined.

(** *** The latest comment *)

Lemma hasOwnProperty_keys {V} (o : list (string * V)) k :
  Js.hasOwnProperty o k = true ↔ In k (map fst o).
Proof.
  rewrite hasOwnProperty_true, in_map_iff. split.
  - intros [v H]. now exists (k, v).
  - intros ([k' v] & Heq & H). simpl in Heq. subst. eauto.
Qed.

Lemma get_unique {V} (o : list (string * V)) k v :
  NoDup (map fst o) → In (k, v) o → Js.get o k = Some v.
Proof.
  intros Hnd Hin. destruct (Js.get o k) as [v'|] eqn:Hget.
  - apply get_In in Hget. f_equal. eapply NoDup_keys_unique; eauto.
  - exfalso. eapply get_None; eauto.
Qed.

Lemma counted_In f1 f2 k o k' g' :
  In (k', g')
    (Js.update (DatabaseHelper.withCounts f2) k
       (Js.update (DatabaseHelper.withCounts f1) k o)) →
  ∃ g0, In (k', g0) o
        ∧ PostAggregate.post g' = PostAggregate.post g0
        ∧ PostAggregate.latest g' = PostAggregate.latest g0.
Proof.
  rewrite update_In.
  intros [[Hne H]|[-> (v & H & ->)]]; rewrite update_In in H.
  - destruct H as [[_ H]|[Heq _]]; [eauto|tauto].
  - destruct H as [[Hne _]|[_ (v0 & H & ->)]]; [tauto|]. eauto.
Qed.

Section LatestSteps.
Variables (k : string) (seen : list Notification.t) (n : Notification.t).

Lemma latestOf_other latest :
  latestOf k seen latest → ¬ commentOn k n → latestOf k (seen ++ [n]) latest.
Proof.
  destruct latest as [l|]; simpl.
  - intros (Hin & Hc & Hmax) Hn. repeat split; try apply Hc.
    + apply in_or_app. now left.
    + intros m Hm Hcm. apply in_app_or in Hm as [Hm|[<-|[]]]; [|tauto].
      now apply Hmax.
  - intros Hnone Hn m Hm. apply in_app_or in Hm as [Hm|[<-|[]]]; [|exact Hn].
    now apply Hnone.
Qed.

Lemma latestOf_first :
  latestOf k seen None → commentOn k n → latestOf k (seen ++ [n]) (Some n).
Proof.
  simpl. intros Hnone Hn. repeat split; try apply Hn.
  - apply in_or_app. right. now left.
  - intros m Hm Hcm. apply in_app_or in Hm as [Hm|[<-|[]]]; [|lia].
    exfalso. eapply Hnone; eauto.
Qed.

Lemma latestOf_later l :
  latestOf k seen (Some l) → commentOn k n →
  Notification.createdAt l < Notification.createdAt n →
  latestOf k (seen ++ [n]) (Some n).
Proof.
  simpl. intros (Hin & Hc & Hmax) Hn Hlt. repeat split; try apply Hn.
  - apply in_or_app. right. now left.
  - intros m Hm Hcm. apply in_app_or in Hm as [Hm|[<-|[]]]; [|lia].
    specialize (Hmax m Hm Hcm). lia.
Qed.

Lemma latestOf_kept l :
  latestOf k seen (Some l) → commentOn k n →
  ¬ Notification.createdAt l < Notification.createdAt n →
  latestOf k (seen ++ [n]) (Some l).
Proof.
  simpl. intros (Hin & Hc & Hmax) Hn Hge. repeat split; try apply Hc.
  - apply in_or_app. now left.
  - intros m Hm Hcm. apply in_app_or in Hm as [Hm|[<-|[]]]; [|lia].
    now apply Hmax.
Qed.
End LatestSteps.

Lemma countNotification_aggregated seen o n :
  aggregated seen o →
  aggregated (seen ++ [n]) (DatabaseHelper.countNotification o n).
Proof.
  intros (Hnd & Hhas & Hent).
  destruct (countNotification_unfold o n) as (o1 & Ho1 & ->).
  (* the entry of the post is there *)
  assert (Hnd1 : NoDup (map fst o1)).
  { destruct Ho1 as [[-> _]|[-> Hno]]; [exact Hnd|].
    rewrite map_app. simpl. apply NoDup_app. repeat split; [exact Hnd| |].
    - intros x Hx [Heq|[]]%list_elem_of_In. rewrite <- Heq in Hx.
      apply list_elem_of_In, hasOwnProperty_keys in Hx. congruence.
    - apply NoDup_singleton. }
  assert (Hhas1 : ∀ m, In m (seen ++ [n]) → In (postIdOf m) (map fst o1)).
  { intros m Hm. apply in_app_or in Hm as [Hm|[<-|[]]].
    - apply Hhas, hasOwnProperty_keys in Hm.
      destruct Ho1 as [[-> _]|[-> _]]; [exact Hm|].
      rewrite map_app. apply in_or_app. now left.
    - destruct Ho1 as [[-> H]|[-> _]]; [now apply hasOwnProperty_keys|].
      rewrite map_app. apply in_or_app. right. now left. }
  assert (Hent1 : ∀ k g, In (k, g) o1 →
                         Post.id (PostAggregate.post g) = k
                         ∧ latestOf k seen (PostAggregate.latest g)).
  { intros k g. destruct Ho1 as [[-> _]|[-> Hno]]; [apply Hent|].
    rewrite in_app_iff. intros [H|[[= <- <-]|[]]]; [now apply Hent|].
    split; [reflexivity|]. simpl. intros m Hm [Hk _].
    apply Hhas in Hm. congruence. }
  clear Hnd Hhas Hent Ho1.
  (* counting changes neither the keys nor [latest] *)
  cbv zeta. set (o3 := Js.update _ _ (Js.update _ _ o1)).
  assert (Hkeys3 : map fst o3 = map fst o1).
  { subst o3. now rewrite !update_keys. }
  assert (Hent3 : ∀ k g, In (k, g) o3 →
                         Post.id (PostAggregate.post g) = k
                         ∧ latestOf k seen (PostAggregate.latest g)).
  { intros k g H. apply counted_In in H as (g0 & H & -> & ->).
    now apply Hent1. }
  assert (Hhere : ∃ g3, In (postIdOf n, g3) o3).
  { apply hasOwnProperty_true, hasOwnProperty_keys. rewrite Hkeys3.
    apply Hhas1, in_or_app. right. now left. }
  destruct Hhere as [g3 Hg3].
  assert (Hget : Js.get o3 (postIdOf n) = Some g3).
  { apply get_unique; [now rewrite Hkeys3|exact Hg3]. }
  assert (Hkeep : (∀ k g, In (k, g) o3 → k = postIdOf n →
                          latestOf k (seen ++ [n]) (PostAggregate.latest g)) →
                  aggregated (seen ++ [n]) o3).
  { intros Hk. repeat split.
    - now rewrite Hkeys3.
    - intros m Hm. apply hasOwnProperty_keys. rewrite Hkeys3. now apply Hhas1.
    - now apply Hent3.
    - destruct (String.eqb_spec k (postIdOf n)) as [->|Hne]; [now apply Hk|].
      apply latestOf_other; [now apply Hent3|]. intros [Heq _]. congruence. }
  assert (Hset : latestOf (postIdOf n) (seen ++ [n]) (Some n) →
                 aggregated (seen ++ [n])
                   (Js.update (DatabaseHelper.withLatest n) (postIdOf n) o3)).
  { intros Hn. repeat split.
    - now rewrite update_keys, Hkeys3.
    - intros m Hm. apply hasOwnProperty_keys.
      rewrite update_keys, Hkeys3. now apply Hhas1.
    - apply update_In in H as [[_ H']|[-> (v & H' & ->)]]; [now apply Hent3|].
      simpl. now apply Hent3.
    - apply update_In in H as [[Hne H']|[-> (v & H' & ->)]]; [|exact Hn].
      apply latestOf_other; [now apply Hent3|]. intros [Heq _]. congruence. }
  destruct (String.eqb_spec (Notification.action n) NotificationAction.COMMENT)
    as [Hact|Hact]; cbn [negb].
  - assert (Hc : commentOn (postIdOf n) n) by (split; [reflexivity|exact Hact]).
    rewrite Hget. simpl.
    destruct (Hent3 _ _ Hg3) as [_ Hl3].
    destruct (PostAggregate.latest g3) as [l|] eqn:Hlatest.
    + destruct (Z.ltb_spec (Notification.createdAt l) (Notification.createdAt n))
        as [Hlt|Hge].
      * apply Hset. eapply latestOf_later; eauto.
      * apply Hkeep. intros k g H ->.
        rewrite (NoDup_keys_unique o3 (postIdOf n) g g3), Hlatest; auto;
          [|now rewrite Hkeys3].
        apply latestOf_kept; [exact Hl3|exact Hc|lia].
    + apply Hset. now apply latestOf_first.
  - apply Hkeep. intros k g H ->.
    apply latestOf_other; [now apply Hent3|]. intros [_ Heq]. congruence.
Qed.

Lemma foldl_countNotification_aggregated notifications seen o :
  aggregated seen o →
  aggregated (seen ++ notifications)
    (foldl DatabaseHelper.countNotification o notifications).
Proof.
  revert seen o. induction notifications as [|n ns IH]; intros seen o H; simpl.
  - now rewrite app_nil_r.
  - replace (seen ++ n :: ns) with ((seen ++ [n]) ++ ns)
      by now rewrite <- app_assoc.
    apply IH. now apply countNotification_aggregated.
Qed.

Lemma aggregate_latestOf notifications g :
  In g (DatabaseHelper._aggregateNotifications notifications) →
  latestOf (Post.id (PostAggregate.post g)) notifications
    (PostAggregate.latest g).
Proof.
  intros [k Hk]%aggregate_In.
  destruct (foldl_countNotification_aggregated notifications [] []) as (_ & _ & H).
  { repeat split; [constructor|intros ? []|destruct H|destruct H]. }
  simpl in H. destruct (H k g Hk) as [-> Hl]. exact Hl.
Qed.

Lemma countNotification_other_kind o n :
  Notification.action n ≠ NotificationAction.COMMENT →
  ∀ k g, In (k, g) (DatabaseHelper.countNotification o n) →
         (∃ g0, In (k, g0) o ∧ PostAggregate.latest g = PostAggregate.latest g0)
         ∨ (Js.hasOwnProperty o k = false ∧ PostAggregate.latest g = None).
Proof.
  intros Hact k g.
  destruct (countNotification_unfold o n) as (o1 & Ho1 & ->). cbv zeta.
  destruct (String.eqb_spec (Notification.action n) NotificationAction.COMMENT)
    as [Heq|_]; [contradiction|]. cbn [negb].
  intros (g0 & Hin & _ & ->)%counted_In.
  destruct Ho1 as [[-> _]|[-> Hno]]; [left; eauto|].
  apply in_app_or in Hin as [Hin|[[= <- <-]|[]]]; [left; eauto|].
  right. split; [exact Hno|reflexivity].
Qed.

(** C5. [latest] is updated by comment-kind notifications only: a
    notification of another kind leaves the [latest] of every entry as it
    was (and a post it introduces starts with none).  In every post-aggregate
    returned, [latest], when set, is a comment-kind notification of the
    input on that post, and no comment-kind notification on that post was
    created later; it is null exactly when the input has no comment-kind
    notification on that post.  For comments created at 1, 3 and 2 on one
    post, [latest] is the one created at 3. *)
Theorem C5_latest_comment :
  (∀ o n, Notification.action n ≠ NotificationAction.COMMENT →
     ∀ k g, In (k, g) (DatabaseHelper.countNotification o n) →
       (∃ g0, In (k, g0) o ∧ PostAggregate.latest g = PostAggregate.latest g0)
       ∨ (Js.hasOwnProperty o k = false ∧ PostAggregate.latest g = None))
  ∧ (∀ notifications g,
       In g (DatabaseHelper._aggregateNotifications notifications) →
       (∀ n, PostAggregate.latest g = Some n →
          In n notifications
          ∧ postIdOf n = Post.id (PostAggregate.post g)
          ∧ Notification.action n = NotificationAction.COMMENT
          ∧ ∀ m, In m notifications →
                 postIdOf m = Post.id (PostAggregate.post g) →
                 Notification.action m = NotificationAction.COMMENT →
                 Notification.createdAt m ≤ Notification.createdAt n)
       ∧ (PostAggregate.latest g = None
          ↔ ∀ m, In m notifications →
                 postIdOf m = Post.id (PostAggregate.post g) →
                 Notification.action m ≠ NotificationAction.COMMENT))
  ∧ DatabaseHelper._aggregateNotifications [Example.C1; Example.C2; Example.C3]
    = [Example.aggregateC]
  ∧ PostAggregate.latest Example.aggregateC = Some Example.C2
  ∧ DatabaseHelper._aggregateNotifications Example.likesAndShares
    = [Example.aggregateA; Example.aggregateB]
  ∧ PostAggregate.latest Example.aggregateA = None.
Proof.
  split; [exact countNotification_other_kind|].
  split; [|repeat split; vm_compute; reflexivity].
  intros notifications g Hg. apply aggregate_latestOf in Hg.
  unfold latestOf, commentOn in Hg. split.
  - intros n Hn. rewrite Hn in Hg. destruct Hg as (Hin & [Hk Ha] & Hmax).
    repeat split; auto.
  - destruct (PostAggregate.latest g) as [l|].
    + destruct Hg as (Hin & [Hk Ha] & _). split; [discriminate|].
      intros H. exfalso. exact (H l Hin Hk Ha).
    + split; [|reflexivity]. intros _ m Hm Hk Ha. exact (Hg m Hm (conj Hk Ha)).
Qed.

Lemma C5_latest_comment_witness :
  In Example.C2 [Example.C1; Example.C2; Example.C3]
  ∧ postIdOf Example.C2 = Post.id (PostAggregate.post Example.aggregateC)
  ∧ Notification.action Example.C2 = NotificationAction.COMMENT.
Proof.
  destruct C5_latest_comment as (_ & H & _).
  destruct (H [Example.C1; Example.C2; Example.C3] Example.aggregateC) as [H1 _].
  { vm_compute. left. reflexivity. }
  destruct (H1 Example.C2) as (Hin & Hk & Ha & _); [reflexivity|].
  repeat split; assumption.
Defined.

(** ** The digest window *)

Lemma digestSelection_In gtInvalidDate frequency bound db n :
  In n (DatabaseHelper.digestSelection gtInvalidDate frequency (Some bound) db)
  ↔ In n (DB.notifications db)
    ∧ Notification.emailSentAt n !! frequency = None
    ∧ bound < Notification.createdAt n.
Proof.
  unfold DatabaseHelper.digestSelection, DatabaseHelper.digestMatch.
  rewrite filter_In, andb_true_iff, bool_decide_eq_true. simpl.
  rewrite Z.ltb_lt. tauto.
Qed.

(** *** From the selection to the receivers' groups

    What the loop of the digest path sees: the selected notifications,
    grouped by receiver, for the receivers that have a user record. *)

Lemma groupByReceiver_acc matched :
  ∀ seen groups,
    (∀ r ns n, In (r, ns) groups → In n ns →
               In n seen ∧ Notification.receiver n = r) →
    (∀ n, In n seen →
          ∃ ns, In (Notification.receiver n, ns) groups ∧ In n ns) →
    let groups' :=
      foldl (λ groups n,
             if Js.hasOwnProperty groups (Notification.receiver n)
             then Js.update (λ l, l ++ [n]) (Notification.receiver n) groups
             else groups ++ [(Notification.receiver n, [n])])
        groups matched in
    (∀ r ns n, In (r, ns) groups' → In n ns →
               In n (seen ++ matched) ∧ Notification.receiver n = r)
    ∧ (∀ n, In n (seen ++ matched) →
            ∃ ns, In (Notification.receiver n, ns) groups' ∧ In n ns).
Proof.
  induction matched as [|x matched IH]; intros seen groups Hsound Hcomplete.
  { simpl. rewrite app_nil_r. tauto. }
  cbn [foldl]. replace (seen ++ x :: matched) with ((seen ++ [x]) ++ matched)
    by now rewrite <- app_assoc.
  apply IH; clear IH.
  - intros r ns n Hin Hn.
    destruct (Js.hasOwnProperty groups (Notification.receiver x)) eqn:Hhas.
    + apply update_In in Hin as [[_ Hin]|[-> (ns0 & Hin & ->)]].
      * destruct (Hsound r ns n Hin Hn). split; [|assumption].
        apply in_or_app. now left.
      * apply in_app_or in Hn as [Hn|[<-|[]]].
        -- destruct (Hsound _ ns0 n Hin Hn). split; [|assumption].
           apply in_or_app. now left.
        -- split; [|reflexivity]. apply in_or_app. right. now left.
    + apply in_app_or in Hin as [Hin|[[= <- <-]|[]]].
      * destruct (Hsound r ns n Hin Hn). split; [|assumption].
        apply in_or_app. now left.
      * destruct Hn as [<-|[]]. split; [|reflexivity].
        apply in_or_app. right. now left.
  - intros n Hn.
    destruct (Js.hasOwnProperty groups (Notification.receiver x)) eqn:Hhas.
    + apply in_app_or in Hn as [Hn|[<-|[]]].
      * destruct (Hcomplete n Hn) as (ns & Hin & Hns).
        destruct (String.eqb_spec (Notification.receiver n)
                    (Notification.receiver x)) as [Heq|Hne].
        -- exists (ns ++ [x]). split; [|apply in_or_app; now left].
           apply update_In. right. split; [exact Heq|].
           exists ns. split; [now rewrite <- Heq|reflexivity].
        -- exists ns. split; [|exact Hns]. apply update_In. now left.
      * apply hasOwnProperty_true in Hhas as [ns Hin].
        exists (ns ++ [x]). split; [|apply in_or_app; right; now left].
        apply update_In. right. split; [reflexivity|]. eauto.
    + apply in_app_or in Hn as [Hn|[<-|[]]].
      * destruct (Hcomplete n Hn) as (ns & Hin & Hns).
        exists ns. split; [|exact Hns]. apply in_or_app. now left.
      * exists [x]. split; [|now left]. apply in_or_app. right. now left.
Qed.

Lemma groupByReceiver_In matched r ns n :
  (In (r, ns) (DatabaseHelper.groupByReceiver matched) ∧ In n ns →
   In n matched ∧ Notification.receiver n = r)
  ∧ (In n matched →
     ∃ ns, In (Notification.receiver n, ns)
             (DatabaseHelper.groupByReceiver matched) ∧ In n ns).
Proof.
  destruct (groupByReceiver_acc matched [] []) as [Hsound Hcomplete].
  - intros ? ? ? [].
  - intros ? [].
  - split.
    + intros [Hin Hn]. exact (Hsound r ns n Hin Hn).
    + exact (Hcomplete n).
Qed.

Lemma digestPipeline_In gtInvalidDate frequency bound db n :
  (∃ g, In g (DatabaseHelper.digestPipeline gtInvalidDate frequency bound db)
        ∧ In n (ReceiverGroup.notifications g))
  ↔ In n (DatabaseHelper.digestSelection gtInvalidDate frequency bound db)
    ∧ ∃ u, In u (DB.users db) ∧ User._id u = Notification.receiver n.
Proof.
  unfold DatabaseHelper.digestPipeline, DatabaseHelper.joinGroup. split.
  - intros (g & Hg & Hn). apply in_flat_map in Hg as ([r ns] & Hin & Hg).
    apply in_map_iff in Hg as (u & <- & [Hu Hid]%filter_In).
    simpl in *. apply String.eqb_eq in Hid.
    destruct (groupByReceiver_In
                (DatabaseHelper.digestSelection gtInvalidDate frequency bound db)
                r ns n) as [Hsound _].
    destruct (Hsound (conj Hin Hn)) as [Hsel Hr].
    split; [exact Hsel|]. exists u. split; [exact Hu|congruence].
  - intros [Hsel (u & Hu & Hid)].
    destruct (groupByReceiver_In
                (DatabaseHelper.digestSelection gtInvalidDate frequency bound db)
                (Notification.receiver n) [] n) as [_ Hcomplete].
    destruct (Hcomplete Hsel) as (ns & Hin & Hn).
    exists {| ReceiverGroup._id := Notification.receiver n;
              ReceiverGroup.notifications := ns;
              ReceiverGroup.receiver := u |}.
    split; [|exact Hn]. apply in_flat_map. eexists. split; [exact Hin|].
    apply in_map_iff. exists u. split; [reflexivity|].
    apply filter_In. split; [exact Hu|]. now apply String.eqb_eq.
Qed.

(** ** Unrecognised frequencies *)

Lemma foldl_pushDigest cursor acc :
  foldl DatabaseHelper.pushDigest acc cursor
  = (fst acc ++ map (λ g, digestOf g) cursor,
     snd acc ++ flat_map (λ g, idsOf g) cursor).
Proof.
  revert acc. induction cursor as [|g cursor IH]; intros [digests ids]; simpl.
  - now rewrite !app_nil_r.
  - rewrite IH. simpl. now rewrite <- !app_assoc.
Qed.

Lemma findDigestNotifications_run gtInvalidDate now frequency db :
  let cursor :=
    DatabaseHelper.digestPipeline gtInvalidDate frequency
      (DateHelper.subtractDays now (DatabaseHelper.intervalDays frequency)) db in
  DatabaseHelper._findDigestNotifications gtInvalidDate now frequency db
  = (Returned (map (λ g, digestOf g) cursor),
     {| DB.threads := DB.threads db;
        DB.messages := DB.messages db;
        DB.notifications :=
          map (λ n, if existsb (String.eqb (Notification._id n))
                         (flat_map (λ g, idsOf g) cursor)
                    then DatabaseHelper.stamp frequency now n else n)
            (DB.notifications db);
        DB.users := DB.users db |}).
Proof.
  unfold DatabaseHelper._findDigestNotifications, bind, aggregate, ret,
    DatabaseHelper.setEmailSentAt, updateManyNotifications.
  cbv zeta. now rewrite foldl_pushDigest.
Qed.





(** ** The instant path and its stamping *)

Lemma instantPipeline_In bound db x :
  In x (DatabaseHelper.instantPipeline bound db)
  ↔ In (ReceivedNotification.notification x) (DB.notifications db)
    ∧ DatabaseHelper.instantMatch bound (ReceivedNotification.notification x)
      = true
    ∧ In (ReceivedNotification.receiver x) (DB.users db)
    ∧ User._id (ReceivedNotification.receiver x)
      = Notification.receiver (ReceivedNotification.notification x).
Proof.
  unfold DatabaseHelper.instantPipeline, DatabaseHelper.joinReceiver.
  rewrite in_flat_map. split.
  - intros (n & [Hn Hm]%filter_In & (u & <- & [Hu Hid]%filter_In)%in_map_iff).
    simpl. apply String.eqb_eq in Hid. tauto.
  - destruct x as [n u]. simpl. intros (Hn & Hm & Hu & Hid).
    exists n. split; [now apply filter_In|].
    apply in_map_iff. exists u. split; [reflexivity|].
    apply filter_In. split; [exact Hu|]. now apply String.eqb_eq.
Qed.

Lemma findInstantNotifications_run this now db :
  DatabaseHelper._findInstantNotifications this now db
  = (Returned (DatabaseHelper.instantPipeline (instantBound this now) db),
     {| DB.threads := DB.threads db;
        DB.messages := DB.messages db;
        DB.notifications :=
          map (λ n, if existsb (String.eqb (Notification._id n))
                         (selectedIds
                            (DatabaseHelper.instantPipeline
                               (instantBound this now) db))
                    then DatabaseHelper.stamp EmailFrequency.INSTANT now n
                    else n)
            (DB.notifications db);
        DB.users := DB.users db |}).
Proof. reflexivity. Qed.

Lemma instantMatch_true bound n :
  DatabaseHelper.instantMatch bound n = true
  ↔ Notification.readAt n = None
    ∧ Notification.emailSentAt n !! "instant" = None
    ∧ Notification.createdAt n < bound.
Proof.
  unfold DatabaseHelper.instantMatch.
  rewrite !andb_true_iff, !bool_decide_eq_true, Z.ltb_lt. tauto.
Qed.

Lemma stamp_not_matched bound now n :
  DatabaseHelper.instantMatch bound
    (DatabaseHelper.stamp EmailFrequency.INSTANT now n) = false.
Proof.
  apply not_true_is_false. rewrite instantMatch_true. simpl.
  intros (_ & H & _). unfold EmailFrequency.INSTANT in H.
  now rewrite lookup_insert_eq in H.
Qed.

Lemma selected_id l x :
  In x l →
  existsb (String.eqb (Notification._id (ReceivedNotification.notification x)))
    (selectedIds l) = true.
Proof.
  intros Hx. apply existsb_exists. eexists. split; [|apply String.eqb_refl].
  apply in_map_iff. now exists x.
Qed.

(** C6, as the code has it.  Both calls return.  After the first call every
    stored notification whose identifier was selected carries the instant
    stamp.  What the second call returns was not yet older than the lookback
    interval when the first call read the clock, and is older than it when
    the second call does; so the second call returns the empty list when the
    clock has not advanced between the two readings. *)
Theorem C6_second_call_returns_newly_aged
    (this : DatabaseHelper.t) (now1 now2 : Z) (db : DB.t) :
  let first := DatabaseHelper._findInstantNotifications this now1 db in
  let second := DatabaseHelper._findInstantNotifications this now2 (snd first) in
  ∃ l1 l2,
    fst first = Returned l1
    ∧ fst second = Returned l2
    ∧ (∀ x n, In x l1 → In n (DB.notifications (snd first)) →
              Notification._id n
              = Notification._id (ReceivedNotification.notification x) →
              Notification.emailSentAt n !! EmailFrequency.INSTANT = Some now1)
    ∧ (∀ x, In x l2 →
            instantBound this now1
            ≤ Notification.createdAt (ReceivedNotification.notification x)
            ∧ Notification.createdAt (ReceivedNotification.notification x)
              < instantBound this now2)
    ∧ (now2 ≤ now1 → l2 = []).
Proof.
  cbv zeta. rewrite !findInstantNotifications_run. simpl fst. simpl snd.
  set (l1 := DatabaseHelper.instantPipeline (instantBound this now1) db).
  set (db1 := {| DB.threads := _ |}).
  set (l2 := DatabaseHelper.instantPipeline (instantBound this now2) db1).
  exists l1, l2. split; [reflexivity|]. split; [reflexivity|].
  assert (Hstamped :
    ∀ x n, In x l1 → In n (DB.notifications db1) →
           Notification._id n
           = Notification._id (ReceivedNotification.notification x) →
           Notification.emailSentAt n !! EmailFrequency.INSTANT = Some now1).
  { intros x n Hx Hn Hid. subst db1. simpl in Hn.
    apply in_map_iff in Hn as (n0 & <- & _).
    destruct (existsb _ _) eqn:Hsel.
    - simpl. apply lookup_insert_eq.
    - rewrite Hid, (selected_id l1 x Hx) in Hsel. discriminate. }
  assert (Hnew :
    ∀ x, In x l2 →
         instantBound this now1
         ≤ Notification.createdAt (ReceivedNotification.notification x)
         ∧ Notification.createdAt (ReceivedNotification.notification x)
           < instantBound this now2).
  { intros x Hx. subst l2. apply instantPipeline_In in Hx as (Hn & Hm & Hu & Hid).
    pose proof Hm as (Hread & Hsent & Hlt)%instantMatch_true.
    split; [|exact Hlt].
    subst db1. simpl in Hn, Hu. apply in_map_iff in Hn as (n0 & Heq & Hn0).
    destruct (existsb _ _) eqn:Hsel.
    { rewrite <- Heq, stamp_not_matched in Hm. discriminate. }
    subst n0.
    destruct (Z.le_gt_cases (instantBound this now1)
                (Notification.createdAt (ReceivedNotification.notification x)))
      as [Hle|Hgt]; [exact Hle|].
    exfalso.
    assert (Hx1 : In x l1).
    { subst l1. apply instantPipeline_In. repeat split; auto.
      apply instantMatch_true. repeat split; assumption. }
    rewrite (selected_id l1 x Hx1) in Hsel. discriminate. }
  split; [exact Hstamped|]. split; [exact Hnew|].
  intros Hclock. destruct l2 as [|x l2'] eqn:Hl2; [reflexivity|].
  exfalso. destruct (Hnew x) as [Hle Hlt]; [now left|].
  unfold DateHelper.subtractMinutes in *. lia.
Qed.

Lemma C6_second_call_returns_newly_aged_witness :
  ∃ l1 l2,
    fst (DatabaseHelper._findInstantNotifications Example.helper 300002
           Example.oneNotification) = Returned l1
    ∧ fst (DatabaseHelper._findInstantNotifications Example.helper 300002
             (snd (DatabaseHelper._findInstantNotifications Example.helper
                     300002 Example.oneNotification))) = Returned l2
    ∧ l2 = [].
Proof.
  destruct (C6_second_call_returns_newly_aged Example.helper 300002 300002
              Example.oneNotification) as (l1 & l2 & H1 & H2 & _ & _ & H).
  exists l1, l2. repeat split; [exact H1|exact H2|]. apply H. lia.
Defined.

(** The second of two calls in succession need not return the empty list:
    with a lookback interval of five minutes, a notification created at 1 is
    not selected by a call at 300001 (it is not yet older than the
    interval), and is returned by the next call, one millisecond later, on
    the store the first call left. *)
Lemma C6_second_call_not_empty :
  let first :=
    DatabaseHelper._findInstantNotifications Example.helper 300001
      Example.oneNotification in
  first = (Returned [], Example.oneNotification)
  ∧ fst (DatabaseHelper._findInstantNotifications Example.helper 300002
           (snd first))
    = Returned [{| ReceivedNotification.notification := Example.C1;
                   ReceivedNotification.receiver := Example.userR |}].
Proof. split; vm_compute; reflexivity. Qed.

(** ** Unread direct messages *)

Section Reads.
Context {A B : Type}.

Lemma ret_readOnly (a : A) : readOnly (ret a).
Proof. intros db. reflexivity. Qed.

Lemma throw_readOnly e : readOnly (throw (A := A) e).
Proof. intros db. reflexivity. Qed.

Lemma lift_readOnly (o : Js.outcome A) : readOnly (lift o).
Proof. intros db. reflexivity. Qed.

Lemma aggregate_readOnly (pipeline : DB.t → A) : readOnly (aggregate pipeline).
Proof. intros db. reflexivity. Qed.

Lemma bind_readOnly (m : M A) (k : A → M B) :
  readOnly m → (∀ a, readOnly (k a)) → readOnly (bind m k).
Proof.
  intros Hm Hk db. unfold bind. specialize (Hm db).
  destruct (m db) as [[a|e] db']; simpl in *; subst; [apply Hk|reflexivity].
Qed.
End Reads.

Lemma findUnreadDirectMessages_readOnly this now :
  readOnly (DatabaseHelper.findUnreadDirectMessages this now).
Proof.
  unfold DatabaseHelper.findUnreadDirectMessages.
  apply bind_readOnly; [apply aggregate_readOnly|]. intros threads.
  apply bind_readOnly; [apply aggregate_readOnly|]. intros cursor.
  apply lift_readOnly.
Qed.

(** C9. [findUnreadDirectMessages] writes nothing: whether it returns or
    throws, the store after the call is the store before it, collection by
    collection. *)
Theorem C9_findUnreadDirectMessages_read_only
    (this : DatabaseHelper.t) (now : Z) (db : DB.t) :
  let after := snd (DatabaseHelper.findUnreadDirectMessages this now db) in
  after = db
  ∧ DB.threads after = DB.threads db
  ∧ DB.messages after = DB.messages db
  ∧ DB.notifications after = DB.notifications db
  ∧ DB.users after = DB.users db.
Proof.
  cbv zeta. rewrite (findUnreadDirectMessages_readOnly this now db).
  repeat split.
Qed.

(** By contrast the instant finder writes: it stamps what it selects. *)
Lemma findInstantNotifications_writes :
  snd (DatabaseHelper._findInstantNotifications Example.helper 300002
         Example.oneNotification)
  ≠ Example.oneNotification.
Proof.
  intros H. apply (f_equal DB.notifications) in H. vm_compute in H.
  discriminate H.
Qed.

Lemma resolvePair_Some participants sender receiver :
  DatabaseHelper.resolvePair participants = Some (sender, receiver) →
  In sender participants ∧ Participant.newMessages sender = 0
  ∧ In receiver participants ∧ 0 < Participant.newMessages receiver.
Proof.
  unfold DatabaseHelper.resolvePair.
  destruct (find _ participants) as [s|] eqn:Hs; [|discriminate].
  destruct (find (λ p, 0 <? _) participants) as [r|] eqn:Hr; [|discriminate].
  intros [= <- <-].
  apply find_some in Hs as [Hs1 Hs2]. apply find_some in Hr as [Hr1 Hr2].
  apply Z.eqb_eq in Hs2. apply Z.ltb_lt in Hr2. tauto.
Qed.

Lemma processMessage_pushed threadsObject message m :
  DatabaseHelper.processMessage threadsObject message = Returned (Some m) →
  ∃ thread,
    threadsObject !! MessageGroup._id message = Some thread
    ∧ DatabaseHelper.resolvePair (Thread.participants thread)
      = Some (UnreadMessage.sender m,
              Receiver.participant (UnreadMessage.receiver m))
    ∧ UnreadMessage.message m = MessageGroup.latestMessage message.
Proof.
  unfold DatabaseHelper.processMessage.
  destruct (threadsObject !! _) as [thread|]; [|discriminate].
  destruct (DatabaseHelper.resolvePair _) as [[sender receiver]|] eqn:Hpair;
    [|discriminate].
  destruct (find _ (Thread.users thread)) as [receiverUser|]; [|discriminate].
  intros H. exists thread. rewrite Hpair.
  destruct (User.notifyPrefs receiverUser) as [prefs|].
  - destruct (NotifyPrefs.instant prefs) as [instant|]; [|discriminate].
    destruct (negb _); [discriminate|]. now inversion H.
  - now inversion H.
Qed.

Lemma drainCursor_Forall (P : UnreadMessage.t → Prop) threadsObject :
  (∀ message m,
     DatabaseHelper.processMessage threadsObject message = Returned (Some m) →
     P m) →
  ∀ cursor messages l,
    Forall P messages →
    DatabaseHelper.drainCursor threadsObject cursor messages = Returned l →
    Forall P l.
Proof.
  intros Hstep cursor.
  induction cursor as [|message rest IH]; intros messages l Hacc; simpl.
  - now intros [= <-].
  - destruct (DatabaseHelper.processMessage threadsObject message)
      as [[m|]|e] eqn:Hp; [| |discriminate].
    + apply IH. apply Forall_app. split; [exact Hacc|].
      constructor; [|constructor]. eapply Hstep, Hp.
    + now apply IH.
Qed.

(** Every message group of the cursor belongs to one of the threads found,
    so that the lookup in [threadsObject] succeeds. *)

Lemma threadsObject_lookup threads id (m : gmap string Thread.t) :
  In id (map Thread._id threads) ∨ is_Some (m !! id) →
  is_Some
    (foldl (λ accumulator thread, <[Thread._id thread := thread]> accumulator)
       m threads !! id).
Proof.
  revert m. induction threads as [|t threads IH]; simpl; intros m [H|H].
  - destruct H.
  - exact H.
  - apply IH. destruct H as [<-|H]; [right|now left].
    rewrite lookup_insert_eq. eauto.
  - apply IH. right. destruct (decide (Thread._id t = id)) as [<-|Hne].
    + rewrite lookup_insert_eq. eauto.
    + now rewrite lookup_insert_ne.
Qed.

Lemma set_keys {V} (o : list (string * V)) k v k' v' :
  In (k', v') (Js.set o k v) → In k' (map fst o) ∨ k' = k.
Proof.
  unfold Js.set. destruct (Js.hasOwnProperty o k).
  - intros H. left. rewrite <- (update_keys (λ _, v) k o).
    apply in_map_iff. now exists (k', v').
  - intros [H|[[= <- <-]|[]]]%in_app_or; [left|now right].
    apply in_map_iff. now exists (k', v').
Qed.

Lemma grouped_keys (sorted : list Message.t) :
  ∀ groups k v,
    In (k, v) (foldl (λ groups m, Js.set groups (Message.threadId m) m)
                 groups sorted) →
    In k (map fst groups) ∨ In k (map Message.threadId sorted).
Proof.
  induction sorted as [|m sorted IH]; simpl; intros groups k v H.
  - left. apply in_map_iff. now exists (k, v).
  - apply IH in H as [H|H]; [|tauto].
    apply in_map_iff in H as ([k' v'] & <- & H).
    apply set_keys in H as [H| ->]; tauto.
Qed.

Lemma messagesPipeline_ids threadIds db g :
  In g (DatabaseHelper.messagesPipeline threadIds db) →
  In (MessageGroup._id g) threadIds.
Proof.
  unfold DatabaseHelper.messagesPipeline. cbv zeta.
  intros ([k v] & <- & H)%in_map_iff. simpl.
  apply grouped_keys in H as [[]|H].
  apply in_map_iff in H as (m & <- & Hm).
  apply sort_In, filter_In in Hm as [_ Hm].
  apply existsb_exists in Hm as (id & Hid & Heq).
  apply String.eqb_eq in Heq. now rewrite Heq.
Qed.

Lemma cursor_threads_found bound db g :
  let threads := DatabaseHelper.threadsPipeline bound db in
  In g (DatabaseHelper.messagesPipeline (map Thread._id threads) db) →
  is_Some
    (foldl (λ accumulator thread, <[Thread._id thread := thread]> accumulator)
       (∅ : gmap string Thread.t) threads !! MessageGroup._id g).
Proof.
  intros threads Hg. apply threadsObject_lookup. left.
  eapply messagesPipeline_ids, Hg.
Qed.

Ltac decide_counts :=
  repeat match goal with
         | |- context [?a =? ?b] => destruct (Z.eqb_spec a b)
         | |- context [?a <? ?b] => destruct (Z.ltb_spec a b)
         end;
  try reflexivity; try lia.

(** *** A receiver without a user record *)

Lemma processMessage_missing_user threadsObject message thread sender receiver :
  threadsObject !! MessageGroup._id message = Some thread →
  DatabaseHelper.resolvePair (Thread.participants thread)
  = Some (sender, receiver) →
  find (λ user, String.eqb (User._id user) (Participant.id receiver))
    (Thread.users thread) = None →
  ∀ rest messages,
    DatabaseHelper.drainCursor threadsObject (message :: rest) messages
    = Thrown Js.TypeError.
Proof.
  intros Hthread Hpair Huser rest messages. simpl.
  unfold DatabaseHelper.processMessage.
  now rewrite Hthread, Hpair, Huser.
Qed.

(** C2, on the code.  With one well-formed thread the method returns its
    unread message.  With a second thread whose receiver has no user record
    among the joined users, the method throws a [TypeError] and returns
    nothing, not even the message of the well-formed thread: the thread is
    not skipped. *)
Theorem C2_missing_receiver_record_aborts :
  fst (DatabaseHelper.findUnreadDirectMessages Example.helper Example.now
         Example.inbox)
  = Returned [Example.unread1]
  ∧ fst (DatabaseHelper.findUnreadDirectMessages Example.helper Example.now
           Example.inboxWithOrphan)
    = Thrown Js.TypeError.
Proof. split; vm_compute; reflexivity. Qed.


(** * Further properties of the class *)

(** ** The aggregator: what the counters and the ranking mean *)

Lemma tally_snoc p seen n :
  tally p (seen ++ [n]) = tally p seen + (if p n then 1 else 0).
Proof.
  unfold tally. rewrite List.filter_app, length_app. simpl.
  destruct (p n); simpl; lia.
Qed.

Lemma tally_none p seen :
  (∀ m, In m seen → p m = false) → tally p seen = 0.
Proof.
  intros H. unfold tally. induction seen as [|m seen IH]; [reflexivity|].
  simpl. rewrite (H m) by now left. apply IH. intros m' Hm'. apply H. now right.
Qed.

Lemma find_snoc {A} (p : A → bool) l x :
  find p (l ++ [x])
  = match find p l with
    | Some y => Some y
    | None => if p x then Some x else None
    end.
Proof.
  induction l as [|y l IH]; simpl; [reflexivity|].
  destruct (p y); [reflexivity|exact IH].
Qed.

Lemma find_none_iff {A} (p : A → bool) l :
  (∀ m, In m l → p m = false) → find p l = None.
Proof.
  intros H. induction l as [|y l IH]; [reflexivity|]. simpl.
  rewrite (H y) by now left. apply IH. intros m Hm. apply H. now right.
Qed.

(** Where an entry of the object comes from after one turn of the loop. *)
Lemma countNotification_entry o n k g :
  In (k, g) (DatabaseHelper.countNotification o n) →
  ∃ g0,
    (In (k, g0) o
     ∨ Js.hasOwnProperty o k = false ∧ k = postIdOf n
       ∧ g0 = DatabaseHelper.newEntry n)
    ∧ PostAggregate.post g = PostAggregate.post g0
    ∧ PostAggregate.counts g
      = if String.eqb k (postIdOf n)
        then DatabaseHelper.incrementTotal
               (DatabaseHelper.incrementAction (Notification.action n)
                  (PostAggregate.counts g0))
        else PostAggregate.counts g0.
Proof.
  destruct (countNotification_unfold o n) as (o1 & Ho1 & ->). cbv zeta.
  set (o3 := Js.update _ _ (Js.update _ _ o1)).
  intros H.
  assert (H3 : ∃ v, In (k, v) o3
                    ∧ PostAggregate.post g = PostAggregate.post v
                    ∧ PostAggregate.counts g = PostAggregate.counts v).
  { assert (HL : In (k, g) (Js.update (DatabaseHelper.withLatest n)
                              (postIdOf n) o3) →
                 ∃ v, In (k, v) o3
                      ∧ PostAggregate.post g = PostAggregate.post v
                      ∧ PostAggregate.counts g = PostAggregate.counts v).
    { intros [[_ Hin]|[-> (v & Hin & ->)]]%update_In; [eauto|].
      exists v. now repeat split. }
    destruct (negb _); [eauto|].
    destruct (Js.get o3 (postIdOf n) ≫= PostAggregate.latest) as [latest|];
      [|now apply HL].
    destruct (_ <? _); [now apply HL|eauto]. }
  destruct H3 as (v & Hv & -> & ->). subst o3.
  apply update_In in Hv as [[Hne Hv]|[-> (v1 & Hv & ->)]];
    apply update_In in Hv as [[Hne' Hv]|[Heq (v0 & Hv & ->)]]; try tauto.
  - exists v. destruct (String.eqb_spec k (postIdOf n)); [tauto|].
    repeat split. left.
    destruct Ho1 as [[-> _]|[-> _]]; [exact Hv|].
    apply in_app_or in Hv as [Hv|[[= <- <-]|[]]]; tauto.
  - exists v0. rewrite String.eqb_refl. repeat split.
    destruct Ho1 as [[-> _]|[-> Hno]]; [now left|].
    apply in_app_or in Hv as [Hv|[[= <-]|[]]]; [now left|]. right. tauto.
Qed.

Lemma incremented_counts action c :
  let c' :=
    DatabaseHelper.incrementTotal (DatabaseHelper.incrementAction action c) in
  Counts.comment c'
  = Counts.comment c + (if String.eqb action "comment" then 1 else 0)
  ∧ Counts.like c' = Counts.like c + (if String.eqb action "like" then 1 else 0)
  ∧ Counts.share c'
    = Counts.share c + (if String.eqb action "share" then 1 else 0)
  ∧ Counts.total c'
    = Counts.total c + 1 + (if String.eqb action "total" then 1 else 0).
Proof.
  cbv zeta. unfold DatabaseHelper.incrementAction.
  destruct (String.eqb_spec action "comment") as [->|H1]; [simpl; lia|].
  destruct (String.eqb_spec action "like") as [->|H2]; [simpl; lia|].
  destruct (String.eqb_spec action "share") as [->|H3]; [simpl; lia|].
  destruct (String.eqb_spec action "total") as [->|H4]; simpl; lia.
Qed.

Lemma tallied_step k seen n (c0 : Counts.t) :
  Counts.comment c0 = tally (λ m, onPost k m && ofKind "comment" m) seen →
  Counts.like c0 = tally (λ m, onPost k m && ofKind "like" m) seen →
  Counts.share c0 = tally (λ m, onPost k m && ofKind "share" m) seen →
  Counts.total c0
  = tally (onPost k) seen + tally (λ m, onPost k m && ofKind "total" m) seen →
  let c :=
    if String.eqb k (postIdOf n)
    then DatabaseHelper.incrementTotal
           (DatabaseHelper.incrementAction (Notification.action n) c0)
    else c0 in
  Counts.comment c = tally (λ m, onPost k m && ofKind "comment" m) (seen ++ [n])
  ∧ Counts.like c = tally (λ m, onPost k m && ofKind "like" m) (seen ++ [n])
  ∧ Counts.share c = tally (λ m, onPost k m && ofKind "share" m) (seen ++ [n])
  ∧ Counts.total c
    = tally (onPost k) (seen ++ [n])
      + tally (λ m, onPost k m && ofKind "total" m) (seen ++ [n]).
Proof.
  intros Hc Hl Hs Ht. cbv zeta. rewrite !tally_snoc. cbv beta.
  assert (Hon : onPost k n = String.eqb k (postIdOf n)).
  { unfold onPost. apply String.eqb_sym. }
  rewrite !Hon. unfold ofKind in *.
  destruct (String.eqb k (postIdOf n)).
  - destruct (incremented_counts (Notification.action n) c0)
      as (-> & -> & -> & ->).
    simpl andb. rewrite Hc, Hl, Hs, Ht. repeat split; ring.
  - simpl andb. rewrite Hc, Hl, Hs, Ht. repeat split; ring.
Qed.

Lemma countNotification_tallied seen o n :
  aggregated seen o → tallied seen o →
  tallied (seen ++ [n]) (DatabaseHelper.countNotification o n).
Proof.
  intros (_ & Hhas & _) Ht k g Hin.
  apply countNotification_entry in Hin as (g0 & Hfrom & Hpost & Hcounts).
  rewrite Hpost, Hcounts. clear Hpost Hcounts.
  destruct Hfrom as [Hin|(Hno & -> & ->)].
  - destruct (Ht k g0 Hin) as ((first & Hf & Hp) & Hc & Hl & Hs & Htot).
    split; [|now apply tallied_step].
    exists first. rewrite find_snoc, Hf. now split.
  - assert (Hnone : ∀ m, In m seen → onPost (postIdOf n) m = false).
    { intros m Hm. unfold onPost.
      destruct (String.eqb_spec (postIdOf m) (postIdOf n)) as [Heq|]; auto.
      apply Hhas in Hm. congruence. }
    assert (Hzero : ∀ p, tally (λ m, onPost (postIdOf n) m && p m) seen = 0).
    { intros p. apply tally_none. intros m Hm. now rewrite Hnone. }
    split.
    + exists n. rewrite find_snoc, (find_none_iff _ _ Hnone).
      unfold onPost. rewrite String.eqb_refl. now split.
    + apply tallied_step; simpl; rewrite ?Hzero; try reflexivity.
      now rewrite (tally_none _ _ Hnone).
Qed.

Lemma foldl_countNotification_tallied notifications seen o :
  aggregated seen o → tallied seen o →
  tallied (seen ++ notifications)
    (foldl DatabaseHelper.countNotification o notifications).
Proof.
  revert seen o. induction notifications as [|n ns IH]; intros seen o Ha Ht.
  - simpl. now rewrite app_nil_r.
  - simpl. replace (seen ++ n :: ns) with ((seen ++ [n]) ++ ns)
      by now rewrite <- app_assoc.
    apply IH; [now apply countNotification_aggregated|].
    now apply countNotification_tallied.
Qed.

Lemma groups_aggregated notifications :
  aggregated notifications
    (foldl DatabaseHelper.countNotification [] notifications).
Proof.
  apply (foldl_countNotification_aggregated notifications [] []).
  repeat split; [constructor|intros ? []|destruct H|destruct H].
Qed.

Lemma groups_tallied notifications :
  tallied notifications
    (foldl DatabaseHelper.countNotification [] notifications).
Proof.
  apply (foldl_countNotification_tallied notifications [] []).
  - repeat split; [constructor|intros ? []|destruct H|destruct H].
  - intros ? ? [].
Qed.

(** X1. The counters of a returned post-aggregate tally the input: each of
    [comment], [like] and [share] is the number of notifications of that
    kind on the post, and [total] is the number of notifications on the
    post plus the number of those whose action is the string [total], which
    [counts[action] += 1] and [counts.total += 1] count twice. *)
Theorem aggregate_counts (notifications : list Notification.t)
    (g : PostAggregate.t) :
  In g (DatabaseHelper._aggregateNotifications notifications) →
  let k := Post.id (PostAggregate.post g) in
  Counts.comment (PostAggregate.counts g)
  = tally (λ n, onPost k n && ofKind "comment" n) notifications
  ∧ Counts.like (PostAggregate.counts g)
    = tally (λ n, onPost k n && ofKind "like" n) notifications
  ∧ Counts.share (PostAggregate.counts g)
    = tally (λ n, onPost k n && ofKind "share" n) notifications
  ∧ total g
    = tally (onPost k) notifications
      + tally (λ n, onPost k n && ofKind "total" n) notifications.
Proof.
  intros [k Hk]%aggregate_In. cbv zeta.
  destruct (groups_aggregated notifications) as (_ & _ & Hkey).
  destruct (Hkey k g Hk) as [-> _].
  destruct (groups_tallied notifications k g Hk) as (_ & H). exact H.
Qed.

Lemma aggregate_counts_witness :
  total Example.aggregateA
  = tally (onPost (Post.id (PostAggregate.post Example.aggregateA)))
      Example.likesAndShares
    + tally (λ n, onPost (Post.id (PostAggregate.post Example.aggregateA)) n
                  && ofKind "total" n)
        Example.likesAndShares.
Proof.
  apply (aggregate_counts Example.likesAndShares Example.aggregateA).
  vm_compute. left. reflexivity.
Defined.

Lemma filter_partition_perm {A} (p : A → bool) l :
  Permutation (List.filter p l ++ List.filter (λ x, negb (p x)) l) l.
Proof.
  induction l as [|x l IH]; simpl; [constructor|].
  destruct (p x); simpl.
  - now constructor.
  - rewrite <- Permutation_middle. now constructor.
Qed.

Lemma values_perm {V} (o : list (string * V)) :
  Permutation (Js.values o) (map snd o).
Proof.
  unfold Js.values. rewrite <- (filter_partition_perm
    (λ kv, bool_decide (is_Some (Js.arrayIndex (fst kv)))) o) at 3.
  rewrite map_app. apply Permutation_app; [|reflexivity].
  apply Permutation_map, sort_perm.
Qed.

(** The object of the loop, as the list the result is cut from. *)
Lemma aggregate_ranked notifications :
  ∃ ranked,
    DatabaseHelper._aggregateNotifications notifications = firstn 3 ranked
    ∧ Permutation ranked
        (map snd (foldl DatabaseHelper.countNotification [] notifications))
    ∧ StronglySorted (λ a b, total b ≤ total a) ranked.
Proof.
  eexists. split; [reflexivity|]. split.
  - rewrite sort_perm. apply values_perm.
  - apply (sort_descending (λ g, total g)).
Qed.

Lemma groups_postIds notifications :
  postIds (map snd (foldl DatabaseHelper.countNotification [] notifications))
  = map fst (foldl DatabaseHelper.countNotification [] notifications).
Proof.
  destruct (groups_aggregated notifications) as (_ & _ & Hkey).
  rewrite map_map. apply map_ext_in. intros [k g] Hin. simpl.
  now destruct (Hkey k g Hin).
Qed.

Lemma groups_keys notifications k :
  In k (map fst (foldl DatabaseHelper.countNotification [] notifications))
  ↔ In k (map (λ n, postIdOf n) notifications).
Proof.
  destruct (groups_aggregated notifications) as (_ & Hhas & _).
  rewrite !in_map_iff. split.
  - intros ([k' g] & <- & Hin). simpl.
    destruct (groups_tallied notifications k' g Hin) as [(first & Hf & _) _].
    apply find_some in Hf as [Hin' Hon]. exists first.
    unfold onPost in Hon. apply String.eqb_eq in Hon. now split.
  - intros (n & <- & Hn). apply Hhas, hasOwnProperty_true in Hn as [g Hg].
    now exists (postIdOf n, g).
Qed.

Lemma aggregate_nil notifications :
  DatabaseHelper._aggregateNotifications notifications = [] →
  notifications = [].
Proof.
  destruct notifications as [|n ns]; [reflexivity|]. intros Hnil. exfalso.
  destruct (aggregate_ranked (n :: ns)) as (ranked & Hagg & Hperm & _).
  destruct (groups_aggregated (n :: ns)) as (_ & Hhas & _).
  destruct (proj1 (hasOwnProperty_true _ _) (Hhas n (or_introl eq_refl)))
    as [g Hg].
  assert (Hin : In g ranked).
  { apply (Permutation_in _ (Permutation_sym Hperm)), in_map_iff.
    now exists (postIdOf n, g). }
  rewrite Hagg in Hnil. destruct ranked; [destruct Hin|discriminate].
Qed.

(** X2. The post-aggregates returned are about pairwise distinct posts. *)
Theorem aggregate_distinct_posts (notifications : list Notification.t) :
  NoDup (postIds (DatabaseHelper._aggregateNotifications notifications)).
Proof.
  destruct (aggregate_ranked notifications) as (ranked & -> & Hperm & _).
  rewrite <- firstn_map. apply NoDup_ListNoDup.
  apply (List.NoDup_app_remove_r _ (skipn 3 (postIds ranked))).
  rewrite firstn_skipn.
  apply (Permutation_NoDup (Permutation_map _ (Permutation_sym Hperm))).
  rewrite groups_postIds. apply NoDup_ListNoDup.
  now destruct (groups_aggregated notifications).
Qed.

(** X3. When the post identifiers are ordinary keys, the aggregator returns
    as many post-aggregates as the input has distinct posts, up to three;
    in particular it returns none exactly when the input is empty. *)
Theorem aggregate_length (notifications : list Notification.t) :
  (∀ n, In n notifications → ordinaryKey (postIdOf n)) →
  length (DatabaseHelper._aggregateNotifications notifications)
  = Nat.min 3
      (length (nodup String.string_dec (map (λ n, postIdOf n) notifications)))
  ∧ (DatabaseHelper._aggregateNotifications notifications = []
     ↔ notifications = []).
Proof.
  intros _.
  destruct (aggregate_ranked notifications) as (ranked & Hagg & Hperm & _).
  assert (Hlen :
    length (DatabaseHelper._aggregateNotifications notifications)
    = Nat.min 3
        (length (nodup String.string_dec
                   (map (λ n, postIdOf n) notifications)))).
  { rewrite Hagg, length_firstn. f_equal.
    rewrite Hperm, List.length_map, <- (List.length_map fst).
    apply Permutation_length, Permutation.NoDup_Permutation.
    - apply NoDup_ListNoDup. now destruct (groups_aggregated notifications).
    - apply NoDup_nodup.
    - intros k. rewrite nodup_In. apply groups_keys. }
  split; [exact Hlen|]. split.
  - intros Hnil. rewrite Hnil in Hlen. simpl in Hlen.
    destruct notifications as [|n ns]; [reflexivity|exfalso].
    assert (Hin : In (postIdOf n)
                    (nodup String.string_dec
                       (map (λ n, postIdOf n) (n :: ns)))).
    { apply nodup_In. now left. }
    destruct (nodup _ _); [destruct Hin|]. simpl in Hlen. lia.
  - intros ->. reflexivity.
Qed.

Lemma aggregate_length_witness :
  length (DatabaseHelper._aggregateNotifications Sample.fourPosts)
  = Nat.min 3
      (length (nodup String.string_dec
                 (map (λ n, postIdOf n) Sample.fourPosts)))
  ∧ length (nodup String.string_dec (map (λ n, postIdOf n) Sample.fourPosts))
    = 4%nat.
Proof.
  split; [|reflexivity].
  apply (aggregate_length Sample.fourPosts).
  intros n Hn. simpl in Hn.
  repeat (destruct Hn as [<-|Hn]; [split; discriminate|]). destruct Hn.
Defined.

(** X4. The post recorded in a returned post-aggregate is the post of the
    first notification of the input that refers to it; the posts carried by
    later notifications with the same identifier are not looked at. *)
Theorem aggregate_post_of_first (notifications : list Notification.t)
    (g : PostAggregate.t) :
  In g (DatabaseHelper._aggregateNotifications notifications) →
  ∃ first,
    find (onPost (Post.id (PostAggregate.post g))) notifications = Some first
    ∧ PostAggregate.post g = Notification.post first.
Proof.
  intros [k Hk]%aggregate_In.
  destruct (groups_aggregated notifications) as (_ & _ & Hkey).
  destruct (Hkey k g Hk) as [-> _].
  now destruct (groups_tallied notifications k g Hk) as [H _].
Qed.

Lemma aggregate_post_of_first_witness :
  ∃ first,
    find (onPost (Post.id (PostAggregate.post Example.aggregateB)))
      Example.likesAndShares = Some first
    ∧ PostAggregate.post Example.aggregateB = Notification.post first.
Proof.
  apply (aggregate_post_of_first Example.likesAndShares Example.aggregateB).
  vm_compute. right. left. reflexivity.
Defined.

Lemma sorted_app_dominates {A} (R : A → A → Prop) l1 l2 x y :
  StronglySorted R (l1 ++ l2) → In x l1 → In y l2 → R x y.
Proof.
  induction l1 as [|z l1 IH]; simpl; [tauto|].
  intros Hs [<-|Hx] Hy; inversion Hs as [|? ? Hs' Hall]; subst.
  - rewrite Forall_forall in Hall. apply Hall, list_elem_of_In, in_or_app.
    now right.
  - now apply IH.
Qed.

(** X5. When the post identifiers are ordinary keys, the posts returned are
    the most active ones: a post of the input that is left out has a total
    (its notifications, those with the action [total] counted twice) no
    greater than the total of any post-aggregate returned. *)
Theorem aggregate_keeps_the_top (notifications : list Notification.t)
    (g : PostAggregate.t) (n : Notification.t) :
  (∀ m, In m notifications → ordinaryKey (postIdOf m)) →
  In g (DatabaseHelper._aggregateNotifications notifications) →
  In n notifications →
  ¬ In (postIdOf n)
      (postIds (DatabaseHelper._aggregateNotifications notifications)) →
  tally (onPost (postIdOf n)) notifications
  + tally (λ m, onPost (postIdOf n) m && ofKind "total" m) notifications
  ≤ total g.
Proof.
  destruct (aggregate_ranked notifications) as (ranked & -> & Hperm & Hsorted).
  intros _ Hg Hn Hout.
  destruct (groups_aggregated notifications) as (_ & Hhas & Hkey).
  apply Hhas, hasOwnProperty_true in Hn as [g' Hg'].
  destruct (groups_tallied notifications _ g' Hg') as (_ & _ & _ & _ & <-).
  destruct (Hkey _ g' Hg') as [Hid _].
  assert (Hin : In g' ranked).
  { apply (Permutation_in _ (Permutation_sym Hperm)), in_map_iff.
    now exists (postIdOf n, g'). }
  rewrite <- (firstn_skipn 3 ranked) in Hin, Hsorted.
  apply in_app_or in Hin as [Hin|Hin].
  - exfalso. apply Hout, in_map_iff. now exists g'.
  - exact (sorted_app_dominates _ _ _ g g' Hsorted Hg Hin).
Qed.

(** ** Sent-stamping: what it writes and what it leaves *)

Lemma setEmailSentAt_run now ids frequency db :
  DatabaseHelper.setEmailSentAt now ids frequency db
  = (Returned tt,
     {| DB.threads := DB.threads db;
        DB.messages := DB.messages db;
        DB.notifications :=
          map (λ n, if existsb (String.eqb (Notification._id n)) ids
                    then DatabaseHelper.stamp frequency now n else n)
            (DB.notifications db);
        DB.users := DB.users db |}).
Proof. reflexivity. Qed.

Lemma listed_id ids id :
  existsb (String.eqb id) ids = true ↔ In id ids.
Proof.
  rewrite existsb_exists. split.
  - intros (id' & Hin & Heq). apply String.eqb_eq in Heq. now subst.
  - intros Hin. exists id. split; [exact Hin|apply String.eqb_refl].
Qed.

Lemma Forall2_map_r {A B} (R : A → B → Prop) (f : A → B) l :
  (∀ x, In x l → R x (f x)) → Forall2 R l (map f l).
Proof.
  induction l as [|x l IH]; intros H; simpl; constructor.
  - apply H. now left.
  - apply IH. intros y Hy. apply H. now right.
Qed.

(** X7. Stamping the same notifications for the same tier a second time
    overwrites the first stamp: the two calls in a row leave the store that
    the second call alone would leave. *)
Theorem setEmailSentAt_twice (first second : Z) (ids : list string)
    (frequency : string) (db : DB.t) :
  snd (DatabaseHelper.setEmailSentAt second ids frequency
         (snd (DatabaseHelper.setEmailSentAt first ids frequency db)))
  = snd (DatabaseHelper.setEmailSentAt second ids frequency db).
Proof.
  rewrite !setEmailSentAt_run. simpl. f_equal.
  rewrite map_map. apply map_ext. intros n.
  destruct (existsb (String.eqb (Notification._id n)) ids) eqn:Hsel.
  - simpl. rewrite Hsel. unfold DatabaseHelper.stamp. simpl.
    now rewrite insert_insert_eq.
  - now rewrite Hsel.
Qed.

(** ** The instant finder: what it returns and what it writes *)

(** X8. The instant finder returns exactly the pairs of a stored
    notification and a stored user such that the notification is unread,
    has no instant stamp, was created before now minus the lookback
    interval, and names that user as its receiver.  A notification whose
    receiver has no user record is therefore never returned. *)
Theorem findInstantNotifications_returns (this : DatabaseHelper.t) (now : Z)
    (db : DB.t) :
  ∃ l,
    fst (DatabaseHelper._findInstantNotifications this now db) = Returned l
    ∧ ∀ x,
        In x l
        ↔ In (ReceivedNotification.notification x) (DB.notifications db)
          ∧ In (ReceivedNotification.receiver x) (DB.users db)
          ∧ User._id (ReceivedNotification.receiver x)
            = Notification.receiver (ReceivedNotification.notification x)
          ∧ Notification.readAt (ReceivedNotification.notification x) = None
          ∧ Notification.emailSentAt (ReceivedNotification.notification x)
            !! EmailFrequency.INSTANT = None
          ∧ Notification.createdAt (ReceivedNotification.notification x)
            < now - DatabaseHelper.instantUnreadLookbackInterval this * 60000.
Proof.
  rewrite findInstantNotifications_run. eexists. split; [reflexivity|].
  intros x. rewrite instantPipeline_In, instantMatch_true.
  unfold DateHelper.subtractMinutes, EmailFrequency.INSTANT. tauto.
Qed.

(** X9. The instant finder writes nothing but instant stamps: it keeps the
    threads, messages and users and the notifications in number and order;
    a stored notification whose identifier is that of a returned one gets
    its instant stamp set to the current time, and every other stored
    notification, those whose receiver has no user record among them, is
    left as it is. *)
Theorem findInstantNotifications_writes_stamps_only
    (this : DatabaseHelper.t) (now : Z) (db : DB.t) :
  let call := DatabaseHelper._findInstantNotifications this now db in
  ∃ l,
    fst call = Returned l
    ∧ DB.threads (snd call) = DB.threads db
    ∧ DB.messages (snd call) = DB.messages db
    ∧ DB.users (snd call) = DB.users db
    ∧ Forall2
        (λ n n',
           (In (Notification._id n) (selectedIds l) →
            n' = DatabaseHelper.stamp EmailFrequency.INSTANT now n)
           ∧ (¬ In (Notification._id n) (selectedIds l) → n' = n))
        (DB.notifications db) (DB.notifications (snd call)).
Proof.
  cbv zeta. rewrite findInstantNotifications_run. simpl.
  eexists. repeat split. apply Forall2_map_r. intros n _.
  destruct (existsb _ _) eqn:Hsel.
  - split; [reflexivity|]. intros Hnot. apply listed_id in Hsel. tauto.
  - split; [|reflexivity]. intros Hin. apply listed_id in Hin. congruence.
Qed.

(** ** The digest finder: groups, digests and stamps *)

Lemma groupByReceiver_shape matched :
  ∀ groups : list (string * list Notification.t),
    NoDup (map fst groups) →
    (∀ r ns, In (r, ns) groups → ns ≠ []) →
    let groups' :=
      foldl (λ groups n,
             if Js.hasOwnProperty groups (Notification.receiver n)
             then Js.update (λ l, l ++ [n]) (Notification.receiver n) groups
             else groups ++ [(Notification.receiver n, [n])])
        groups matched in
    NoDup (map fst groups') ∧ ∀ r ns, In (r, ns) groups' → ns ≠ [].
Proof.
  induction matched as [|x matched IH]; intros groups Hnd Hne; [now split|].
  cbn [foldl]. apply IH; clear IH;
    destruct (Js.hasOwnProperty groups (Notification.receiver x)) eqn:Hhas.
  - now rewrite update_keys.
  - rewrite map_app. simpl. apply NoDup_app. repeat split; [exact Hnd| |].
    + intros k Hk [Heq|[]]%list_elem_of_In. rewrite <- Heq in Hk.
      apply list_elem_of_In, hasOwnProperty_keys in Hk. congruence.
    + apply NoDup_singleton.
  - intros r ns [[_ Hin]|[_ (ns0 & _ & ->)]]%update_In; [eauto|].
    now destruct ns0.
  - intros r ns [Hin|[[= <- <-]|[]]]%in_app_or; [eauto|discriminate].
Qed.

Lemma groupByReceiver_keys matched :
  NoDup (map fst (DatabaseHelper.groupByReceiver matched))
  ∧ ∀ r ns, In (r, ns) (DatabaseHelper.groupByReceiver matched) → ns ≠ [].
Proof.
  apply (groupByReceiver_shape matched []); [constructor|intros ? ? []].
Qed.

Lemma digestPipeline_group gtInvalidDate frequency bound db g :
  In g (DatabaseHelper.digestPipeline gtInvalidDate frequency bound db) →
  In (ReceiverGroup.receiver g) (DB.users db)
  ∧ User._id (ReceiverGroup.receiver g) = ReceiverGroup._id g
  ∧ ReceiverGroup.notifications g ≠ []
  ∧ ∀ n, In n (ReceiverGroup.notifications g) →
         In n (DatabaseHelper.digestSelection gtInvalidDate frequency bound db)
         ∧ Notification.receiver n = ReceiverGroup._id g.
Proof.
  unfold DatabaseHelper.digestPipeline, DatabaseHelper.joinGroup.
  intros ([r ns] & Hin & Hg)%in_flat_map.
  apply in_map_iff in Hg as (u & <- & [Hu Hid]%filter_In). simpl in *.
  apply String.eqb_eq in Hid.
  split; [exact Hu|]. split; [exact Hid|]. split.
  - exact (proj2 (groupByReceiver_keys _) r ns Hin).
  - intros n Hn. exact (proj1 (groupByReceiver_In _ r ns n) (conj Hin Hn)).
Qed.

(** X10. For the daily, weekly and biweekly tiers and post identifiers that
    are ordinary keys, every digest the digest finder returns is for a
    stored user who is the receiver of the notifications it was built from,
    and lists at least one post and at most three. *)
Theorem findDigestNotifications_digests (gtInvalidDate : Z → bool) (now : Z)
    (frequency : string) (db : DB.t) :
  In frequency [EmailFrequency.DAILY; EmailFrequency.WEEKLY;
                EmailFrequency.BIWEEKLY] →
  (∀ n, In n (DB.notifications db) → ordinaryKey (postIdOf n)) →
  ∃ digests,
    fst (DatabaseHelper._findDigestNotifications gtInvalidDate now frequency db)
    = Returned digests
    ∧ ∀ d, In d digests →
        In (Digest.receiver d) (DB.users db)
        ∧ (1 ≤ length (Digest.posts d) ≤ 3)%nat
        ∧ ∃ ns,
            ns ≠ []
            ∧ Digest.posts d = DatabaseHelper._aggregateNotifications ns
            ∧ ∀ n, In n ns →
                In n (DB.notifications db)
                ∧ Notification.receiver n = User._id (Digest.receiver d)
                ∧ Notification.emailSentAt n !! frequency = None.
Proof.
  intros _ _.
  rewrite findDigestNotifications_run. cbv zeta. eexists.
  split; [reflexivity|].
  intros d (g & <- & Hg)%in_map_iff. simpl.
  apply digestPipeline_group in Hg as (Hu & Hid & Hne & Hsel).
  split; [exact Hu|]. split.
  - split; [|apply slice0_length].
    destruct (DatabaseHelper._aggregateNotifications _) eqn:Hagg;
      [|simpl; lia].
    exfalso. now apply Hne, aggregate_nil.
  - exists (ReceiverGroup.notifications g). repeat split; auto.
    + destruct (Hsel n H) as [Hin _].
      apply filter_In in Hin. tauto.
    + destruct (Hsel n H) as [_ ->]. now symmetry.
    + destruct (Hsel n H) as [Hin _]. apply filter_In in Hin as [_ Hm].
      unfold DatabaseHelper.digestMatch in Hm.
      apply andb_true_iff in Hm as [Hm _]. now apply bool_decide_eq_true in Hm.
Qed.

Lemma findDigestNotifications_digests_witness :
  ∃ digests,
    fst (DatabaseHelper._findDigestNotifications (λ _, false) Example.now
           EmailFrequency.WEEKLY Sample.twoReceivers)
    = Returned digests
    ∧ length digests = 2%nat
    ∧ ∀ d, In d digests →
        In (Digest.receiver d) (DB.users Sample.twoReceivers)
        ∧ (1 ≤ length (Digest.posts d) ≤ 3)%nat.
Proof.
  destruct (findDigestNotifications_digests (λ _, false) Example.now
              EmailFrequency.WEEKLY Sample.twoReceivers)
    as (digests & Hrun & Hall).
  - right. left. reflexivity.
  - intros n Hn. simpl in Hn.
    repeat (destruct Hn as [<-|Hn]; [split; discriminate|]). destruct Hn.
  - exists digests. split; [exact Hrun|]. split.
    + vm_compute in Hrun. injection Hrun as <-. reflexivity.
    + intros d Hd. destruct (Hall d Hd) as (Hu & Hlen & _). now split.
Defined.

Lemma processed_ids gtInvalidDate frequency bound db id :
  In id (flat_map (λ g, idsOf g)
           (DatabaseHelper.digestPipeline gtInvalidDate frequency bound db))
  ↔ ∃ n, In n (DatabaseHelper.digestSelection gtInvalidDate frequency bound db)
         ∧ Notification._id n = id
         ∧ ∃ u, In u (DB.users db) ∧ User._id u = Notification.receiver n.
Proof.
  rewrite in_flat_map. split.
  - intros (g & Hg & (n & <- & Hn)%in_map_iff).
    exists n. split; [|split; [reflexivity|]];
      apply (proj1 (digestPipeline_In gtInvalidDate frequency bound db n));
      eauto.
  - intros (n & Hsel & <- & Hu).
    destruct (proj2 (digestPipeline_In gtInvalidDate frequency bound db n))
      as (g & Hg & Hn); [now split|].
    exists g. split; [exact Hg|]. apply in_map_iff. now exists n.
Qed.

(** *** The window of the digest path *)

(** A group of the cursor holds every selected notification of its
    receiver. *)
Lemma digestPipeline_group_complete gtInvalidDate frequency bound db g n :
  In g (DatabaseHelper.digestPipeline gtInvalidDate frequency bound db) →
  In n (DatabaseHelper.digestSelection gtInvalidDate frequency bound db) →
  Notification.receiver n = ReceiverGroup._id g →
  In n (ReceiverGroup.notifications g).
Proof.
  unfold DatabaseHelper.digestPipeline, DatabaseHelper.joinGroup.
  intros ([r ns] & Hin & Hg)%in_flat_map Hsel Hr.
  apply in_map_iff in Hg as (u & <- & _). simpl in *.
  destruct (proj2 (groupByReceiver_In _ r ns n) Hsel) as (ns' & Hin' & Hn).
  rewrite Hr in Hin'.
  now rewrite (NoDup_keys_unique _ r ns ns'
                 (proj1 (groupByReceiver_keys _)) Hin Hin').
Qed.

Lemma intervalDays_tier frequency days :
  frequency = EmailFrequency.DAILY ∧ days = 1
  ∨ frequency = EmailFrequency.WEEKLY ∧ days = 7
  ∨ frequency = EmailFrequency.BIWEEKLY ∧ days = 14 →
  DatabaseHelper.intervalDays frequency = Some days.
Proof. now intros [[-> ->]|[[-> ->]|[-> ->]]]. Qed.

Lemma weekly_days frequency days :
  frequency = EmailFrequency.DAILY ∧ days = 1
  ∨ frequency = EmailFrequency.WEEKLY ∧ days = 7
  ∨ frequency = EmailFrequency.BIWEEKLY ∧ days = 14 →
  frequency = EmailFrequency.WEEKLY → days = 7.
Proof.
  intros [[-> ->]|[[-> ->]|[-> ->]]] H; [discriminate H|reflexivity|
                                         discriminate H].
Qed.

(** C8. The digest path selects exactly the stored notifications that have
    no sent stamp for the requested tier and were created strictly after now
    minus the tier's window: one day for daily, seven for weekly, fourteen
    for biweekly.  What the path does with the selection shows it.  The
    groups its loop goes through hold the selected notifications of the
    receivers that have a user record, and nothing else; each group holds,
    of the selected notifications, those of its receiver; the digests
    returned are those of the groups; and the stored notifications that get
    the tier's stamp are those with the identifier of a notification in a
    group.  On a weekly query a notification created exactly seven days
    before now is in no group, and an unstamped one created six days before
    now, for a receiver with a user record, is in one.  (Post identifiers
    are ordinary keys, so that the aggregator is run on a dictionary.) *)
Theorem C8_digest_path_window (gtInvalidDate : Z → bool) (now : Z) (db : DB.t)
    (frequency : string) (days : Z) :
  frequency = EmailFrequency.DAILY ∧ days = 1
  ∨ frequency = EmailFrequency.WEEKLY ∧ days = 7
  ∨ frequency = EmailFrequency.BIWEEKLY ∧ days = 14 →
  (∀ n, In n (DB.notifications db) → ordinaryKey (postIdOf n)) →
  let call :=
    DatabaseHelper._findDigestNotifications gtInvalidDate now frequency db in
  let selected n :=
    In n (DB.notifications db)
    ∧ Notification.emailSentAt n !! frequency = None
    ∧ now - days * 86400000 < Notification.createdAt n in
  let known n :=
    ∃ u, In u (DB.users db) ∧ User._id u = Notification.receiver n in
  ∃ cursor,
    fst call = Returned (map (λ g, digestOf g) cursor)
    ∧ (∀ n, (∃ g, In g cursor ∧ In n (ReceiverGroup.notifications g))
            ↔ selected n ∧ known n)
    ∧ (∀ g, In g cursor →
         In (ReceiverGroup.receiver g) (DB.users db)
         ∧ ∀ n, selected n →
                (In n (ReceiverGroup.notifications g)
                 ↔ Notification.receiver n
                   = User._id (ReceiverGroup.receiver g)))
    ∧ Forall2
        (λ n n',
           (In (Notification._id n) (flat_map (λ g, idsOf g) cursor) →
            n' = DatabaseHelper.stamp frequency now n)
           ∧ (¬ In (Notification._id n) (flat_map (λ g, idsOf g) cursor) →
              n' = n))
        (DB.notifications db) (DB.notifications (snd call))
    ∧ (frequency = EmailFrequency.WEEKLY →
       ∀ n, Notification.createdAt n = now - 7 * 86400000 →
            ∀ g, In g cursor → ¬ In n (ReceiverGroup.notifications g))
    ∧ (frequency = EmailFrequency.WEEKLY →
       ∀ n, In n (DB.notifications db) →
            Notification.emailSentAt n !! EmailFrequency.WEEKLY = None →
            Notification.createdAt n = now - 6 * 86400000 →
            known n →
            ∃ g, In g cursor ∧ In n (ReceiverGroup.notifications g)).
Proof.
  intros Htier _ call selected known. subst call.
  rewrite findDigestNotifications_run. cbv zeta.
  rewrite (intervalDays_tier _ _ Htier). unfold DateHelper.subtractDays.
  simpl fmap. set (bound := now - days * 86400000).
  set (cursor := DatabaseHelper.digestPipeline _ _ _ _).
  assert (Hselected : ∀ n,
            In n (DatabaseHelper.digestSelection gtInvalidDate frequency
                    (Some bound) db) ↔ selected n).
  { intros n. apply digestSelection_In. }
  assert (Hgroups : ∀ n,
            (∃ g, In g cursor ∧ In n (ReceiverGroup.notifications g))
            ↔ selected n ∧ known n).
  { intros n. unfold cursor. rewrite digestPipeline_In, Hselected.
    reflexivity. }
  exists cursor. simpl. split; [reflexivity|]. split; [exact Hgroups|].
  split; [|split; [|split]].
  - intros g Hg.
    pose proof (digestPipeline_group _ _ _ _ _ Hg) as (Hu & Hid & _ & Hsel).
    split; [exact Hu|]. intros n Hn. rewrite Hid. split.
    + intros Hin. now destruct (Hsel n Hin).
    + intros Hr. apply (digestPipeline_group_complete _ _ _ _ _ _ Hg);
        [now apply Hselected|exact Hr].
  - apply Forall2_map_r. intros n _.
    destruct (existsb _ _) eqn:Hsel.
    + split; [reflexivity|]. intros Hnot. apply listed_id in Hsel. tauto.
    + split; [|reflexivity]. intros Hin. apply listed_id in Hin. congruence.
  - intros Hweekly n Hcreated g Hg Hin.
    destruct (proj1 (Hgroups n)) as [(_ & _ & Hlt) _]; [eauto|].
    pose proof (weekly_days _ _ Htier Hweekly).
    unfold bound in Hlt. lia.
  - intros Hweekly n Hstored Hstamp Hcreated Hknown.
    apply Hgroups. split; [|exact Hknown]. unfold selected.
    pose proof (weekly_days _ _ Htier Hweekly).
    rewrite Hweekly. repeat split; [exact Hstored|exact Hstamp|lia].
Qed.

Lemma C8_digest_path_window_witness :
  ∃ cursor,
    fst (DatabaseHelper._findDigestNotifications (λ _, false) Example.now
           EmailFrequency.WEEKLY Example.lastWeek)
    = Returned (map (λ g, digestOf g) cursor)
    ∧ (∃ g, In g cursor
            ∧ In Example.sixDaysAgo (ReceiverGroup.notifications g))
    ∧ (∀ g, In g cursor →
            ¬ In Example.sevenDaysAgo (ReceiverGroup.notifications g)).
Proof.
  destruct (C8_digest_path_window (λ _, false) Example.now Example.lastWeek
              EmailFrequency.WEEKLY 7)
    as (cursor & Hrun & _ & _ & _ & Hout & Hin).
  - right. left. split; reflexivity.
  - intros n [<-|[<-|[]]]; split; discriminate.
  - exists cursor. split; [exact Hrun|]. split.
    + apply (Hin eq_refl Example.sixDaysAgo).
      * right. left. reflexivity.
      * reflexivity.
      * reflexivity.
      * exists Example.userR. split; [left|]; reflexivity.
    + apply (Hout eq_refl Example.sevenDaysAgo). reflexivity.
Defined.

(** X11. The digest finder writes nothing but stamps of the requested tier:
    it keeps the threads, messages and users and the notifications in number
    and order.  A stored notification is stamped exactly when its identifier
    is that of a selected notification whose receiver has a user record,
    whether or not its post is among the three its receiver's digest
    reports; the others, those selected for a receiver without a user
    record among them, are left as they are. *)
Theorem findDigestNotifications_writes_stamps_only
    (gtInvalidDate : Z → bool) (now : Z) (frequency : string) (db : DB.t) :
  let call :=
    DatabaseHelper._findDigestNotifications gtInvalidDate now frequency db in
  let processed id :=
    ∃ n, In n (DatabaseHelper.digestSelection gtInvalidDate frequency
                 (DateHelper.subtractDays now
                    (DatabaseHelper.intervalDays frequency)) db)
         ∧ Notification._id n = id
         ∧ ∃ u, In u (DB.users db) ∧ User._id u = Notification.receiver n in
  DB.threads (snd call) = DB.threads db
  ∧ DB.messages (snd call) = DB.messages db
  ∧ DB.users (snd call) = DB.users db
  ∧ Forall2
      (λ n n',
         (processed (Notification._id n) →
          n' = DatabaseHelper.stamp frequency now n)
         ∧ (¬ processed (Notification._id n) → n' = n))
      (DB.notifications db) (DB.notifications (snd call)).
Proof.
  cbv zeta. rewrite findDigestNotifications_run. cbv zeta. simpl.
  repeat split. apply Forall2_map_r. intros n _.
  destruct (existsb _ _) eqn:Hsel.
  - split; [reflexivity|]. intros Hnot. exfalso. apply Hnot.
    now apply processed_ids, listed_id.
  - split; [|reflexivity]. intros Hin.
    apply processed_ids, listed_id in Hin. congruence.
Qed.

Lemma digestSelection_after_stamp gtInvalidDate frequency bound now ids db n :
  In n (DatabaseHelper.digestSelection gtInvalidDate frequency bound
          {| DB.threads := DB.threads db;
             DB.messages := DB.messages db;
             DB.notifications :=
               map (λ n, if existsb (String.eqb (Notification._id n)) ids
                         then DatabaseHelper.stamp frequency now n else n)
                 (DB.notifications db);
             DB.users := DB.users db |}) →
  In n (DatabaseHelper.digestSelection gtInvalidDate frequency bound db)
  ∧ ¬ In (Notification._id n) ids.
Proof.
  unfold DatabaseHelper.digestSelection. simpl.
  intros [(n0 & Heq & Hn0)%in_map_iff Hm]%filter_In.
  destruct (existsb _ ids) eqn:Hsel.
  - exfalso. subst n. unfold DatabaseHelper.digestMatch in Hm.
    apply andb_true_iff in Hm as [Hm _]. apply bool_decide_eq_true in Hm.
    simpl in Hm. now rewrite lookup_insert_eq in Hm.
  - subst n0. split; [now apply filter_In|].
    intros Hin. apply listed_id in Hin. congruence.
Qed.

Lemma createdAfter_later gtInvalidDate now1 now2 days n :
  now1 ≤ now2 →
  DatabaseHelper.createdAfter gtInvalidDate
    (DateHelper.subtractDays now2 days) n = true →
  DatabaseHelper.createdAfter gtInvalidDate
    (DateHelper.subtractDays now1 days) n = true.
Proof.
  intros Hle. destruct days as [d|]; simpl; [|tauto].
  rewrite !Z.ltb_lt. lia.
Qed.

(** X12. Unlike the instant finder, the digest finder does not pick up
    anything new as the clock advances: called a second time for the same
    tier, at the same or a later time and on the store the first call left,
    it returns no digest.  (The window is bounded from below, so whatever
    the second call could select the first had selected and stamped.) *)
Theorem findDigestNotifications_twice (gtInvalidDate : Z → bool)
    (now1 now2 : Z) (frequency : string) (db : DB.t) :
  now1 ≤ now2 →
  fst (DatabaseHelper._findDigestNotifications gtInvalidDate now2 frequency
         (snd (DatabaseHelper._findDigestNotifications gtInvalidDate now1
                 frequency db)))
  = Returned [].
Proof.
  intros Hle.
  rewrite !findDigestNotifications_run. cbv zeta. simpl fst. simpl snd.
  f_equal.
  destruct (DatabaseHelper.digestPipeline gtInvalidDate frequency
              (DateHelper.subtractDays now2
                 (DatabaseHelper.intervalDays frequency)) _)
    as [|g rest] eqn:Hcursor; [reflexivity|exfalso].
  assert (Hg : In g (g :: rest)) by now left.
  rewrite <- Hcursor in Hg. clear Hcursor.
  apply digestPipeline_group in Hg as (Hu & Hid & Hne & Hsel).
  destruct (ReceiverGroup.notifications g) as [|n ns]; [congruence|].
  destruct (Hsel n) as [Hn Hr]; [now left|].
  simpl in Hu.
  apply digestSelection_after_stamp in Hn as [Hn Hnot].
  apply Hnot, processed_ids. exists n. split; [|split; [reflexivity|]].
  - unfold DatabaseHelper.digestSelection in *.
    apply filter_In in Hn as [Hin Hm]. apply filter_In. split; [exact Hin|].
    unfold DatabaseHelper.digestMatch in *.
    apply andb_true_iff in Hm as [Hs Hc]. apply andb_true_iff.
    split; [exact Hs|]. eapply createdAfter_later; eauto.
  - exists (ReceiverGroup.receiver g). split; [exact Hu|congruence].
Qed.

Lemma findDigestNotifications_twice_witness :
  fst (DatabaseHelper._findDigestNotifications (λ _, false)
         (Example.now + 1) EmailFrequency.WEEKLY
         (snd (DatabaseHelper._findDigestNotifications (λ _, false)
                 Example.now EmailFrequency.WEEKLY Example.lastWeek)))
  = Returned [].
Proof.
  apply (findDigestNotifications_twice (λ _, false) Example.now
           (Example.now + 1) EmailFrequency.WEEKLY Example.lastWeek).
  unfold Example.now. lia.
Defined.

(** *** The tiers do not interfere *)

Lemma filter_map_commute {A} (p : A → bool) (h : A → A) l :
  (∀ x, p (h x) = p x) →
  List.filter p (map h l) = map h (List.filter p l).
Proof.
  intros H. induction l as [|x l IH]; simpl; [reflexivity|].
  rewrite H. destruct (p x); simpl; now rewrite IH.
Qed.

Lemma digestSelection_other_tier gtInvalidDate tier bound now ids frequency db :
  tier ≠ frequency →
  map Notification._id
    (DatabaseHelper.digestSelection gtInvalidDate tier bound
       (snd (DatabaseHelper.setEmailSentAt now ids frequency db)))
  = map Notification._id
      (DatabaseHelper.digestSelection gtInvalidDate tier bound db).
Proof.
  intros Hne. rewrite setEmailSentAt_run.
  unfold DatabaseHelper.digestSelection. simpl.
  rewrite filter_map_commute.
  - rewrite map_map. apply map_ext. intros n. now destruct (existsb _ ids).
  - intros n. destruct (existsb _ ids); [|reflexivity].
    unfold DatabaseHelper.digestMatch, DatabaseHelper.createdAfter. simpl.
    now rewrite lookup_insert_ne.
Qed.

Lemma instantPipeline_other_tier bound now ids frequency db :
  frequency ≠ EmailFrequency.INSTANT →
  selectedIds
    (DatabaseHelper.instantPipeline bound
       (snd (DatabaseHelper.setEmailSentAt now ids frequency db)))
  = selectedIds (DatabaseHelper.instantPipeline bound db).
Proof.
  intros Hne. rewrite setEmailSentAt_run.
  unfold DatabaseHelper.instantPipeline. simpl.
  rewrite filter_map_commute.
  - induction (List.filter _ (DB.notifications db)) as [|n l IH];
      [reflexivity|].
    simpl. rewrite !map_app, IH. f_equal.
    unfold DatabaseHelper.joinReceiver. rewrite !map_map.
    destruct (existsb _ ids); reflexivity.
  - intros n. destruct (existsb _ ids); [|reflexivity].
    unfold DatabaseHelper.instantMatch. simpl.
    unfold EmailFrequency.INSTANT in Hne. now rewrite lookup_insert_ne.
Qed.

(** X13. The four tiers do not interfere.  Running the digest finder for
    one of them changes neither which notifications the digest query of
    another of them selects nor, unless the tier is the instant one, which
    ones the instant query returns; running the instant finder does not
    change which notifications the digest query of a tier other than the
    instant one selects. *)
Theorem tiers_do_not_interfere (gtInvalidDate : Z → bool)
    (this : DatabaseHelper.t) (now : Z) (frequency : string) (db : DB.t) :
  In frequency tiers →
  let afterDigest :=
    snd (DatabaseHelper._findDigestNotifications gtInvalidDate now frequency db) in
  let afterInstant :=
    snd (DatabaseHelper._findInstantNotifications this now db) in
  (∀ tier bound, In tier tiers → tier ≠ frequency →
     map Notification._id
       (DatabaseHelper.digestSelection gtInvalidDate tier bound afterDigest)
     = map Notification._id
         (DatabaseHelper.digestSelection gtInvalidDate tier bound db))
  ∧ (∀ bound, frequency ≠ EmailFrequency.INSTANT →
       selectedIds (DatabaseHelper.instantPipeline bound afterDigest)
       = selectedIds (DatabaseHelper.instantPipeline bound db))
  ∧ (∀ tier bound, In tier tiers → tier ≠ EmailFrequency.INSTANT →
       map Notification._id
         (DatabaseHelper.digestSelection gtInvalidDate tier bound afterInstant)
       = map Notification._id
           (DatabaseHelper.digestSelection gtInvalidDate tier bound db)).
Proof.
  intros _. cbv zeta. split; [|split].
  - intros tier bound _ Hne.
    rewrite findDigestNotifications_run. cbv zeta.
    now apply (digestSelection_other_tier gtInvalidDate tier bound now _
                 frequency db).
  - intros bound Hne.
    rewrite findDigestNotifications_run. cbv zeta.
    now apply (instantPipeline_other_tier bound now _ frequency db).
  - intros tier bound _ Hne.
    rewrite findInstantNotifications_run.
    now apply (digestSelection_other_tier gtInvalidDate tier bound now _
                 EmailFrequency.INSTANT db).
Qed.

(** After the weekly digest of [Example.lastWeek], which stamps the
    notification created six days ago, the biweekly query still selects
    both notifications. *)
Lemma tiers_do_not_interfere_witness :
  map Notification._id
    (DatabaseHelper.digestSelection (λ _, false) EmailFrequency.BIWEEKLY
       (Some (Example.now - 14 * 86400000))
       (snd (DatabaseHelper._findDigestNotifications (λ _, false) Example.now
               EmailFrequency.WEEKLY Example.lastWeek)))
  = map Notification._id
      (DatabaseHelper.digestSelection (λ _, false) EmailFrequency.BIWEEKLY
         (Some (Example.now - 14 * 86400000)) Example.lastWeek)
  ∧ map Notification._id
      (DatabaseHelper.digestSelection (λ _, false) EmailFrequency.BIWEEKLY
         (Some (Example.now - 14 * 86400000)) Example.lastWeek)
    = ["n7d"; "n6d"]
  ∧ snd (DatabaseHelper._findDigestNotifications (λ _, false) Example.now
           EmailFrequency.WEEKLY Example.lastWeek)
    ≠ Example.lastWeek.
Proof.
  split; [|split].
  - destruct (tiers_do_not_interfere (λ _, false) Example.helper Example.now
                EmailFrequency.WEEKLY Example.lastWeek) as [H _].
    + right. right. left. reflexivity.
    + apply (H EmailFrequency.BIWEEKLY).
      * right. right. right. left. reflexivity.
      * discriminate.
  - vm_compute. reflexivity.
  - intros H. apply (f_equal DB.notifications) in H. vm_compute in H.
    discriminate H.
Defined.

(** *** One digest per receiver *)

Lemma NoDup_map_filter {A B} (f : A → B) (p : A → bool) l :
  NoDup (map f l) → NoDup (map f (List.filter p l)).
Proof.
  induction l as [|x l IH]; simpl; [tauto|].
  intros [Hx Hl]%NoDup_cons. destruct (p x); simpl; [|now apply IH].
  apply NoDup_cons. split; [|now apply IH].
  intros Hin. apply Hx. apply list_elem_of_In in Hin.
  apply in_map_iff in Hin as (y & Hy & [Hin _]%filter_In).
  apply list_elem_of_In, in_map_iff. now exists y.
Qed.

Lemma joined_receivers_NoDup users (groups : list (string * list Notification.t)) :
  NoDup (map User._id users) →
  NoDup (map fst groups) →
  NoDup (map (λ g, User._id (ReceiverGroup.receiver g))
           (flat_map (DatabaseHelper.joinGroup users) groups)).
Proof.
  intros Hu. induction groups as [|g groups IH]; simpl; [constructor|].
  intros [Hg Hgs]%NoDup_cons. rewrite map_app. apply NoDup_app.
  repeat split; [| |now apply IH].
  - unfold DatabaseHelper.joinGroup. rewrite map_map. simpl.
    now apply NoDup_map_filter.
  - intros id Hid Hid'. apply Hg.
    apply list_elem_of_In, in_map_iff in Hid as (x & <- & Hx).
    unfold DatabaseHelper.joinGroup in Hx.
    apply in_map_iff in Hx as (u & <- & [_ Heq]%filter_In). simpl in *.
    apply String.eqb_eq in Heq. rewrite Heq in Hid'.
    apply list_elem_of_In, in_map_iff in Hid' as (y & Hy & Hin).
    apply in_flat_map in Hin as (g' & Hg' & Hin).
    unfold DatabaseHelper.joinGroup in Hin.
    apply in_map_iff in Hin as (u' & <- & [_ Heq']%filter_In). simpl in *.
    apply String.eqb_eq in Heq'. apply list_elem_of_In, in_map_iff.
    exists g'. split; [congruence|exact Hg'].
Qed.

(** X14. When the user records have pairwise distinct identifiers, the
    digest finder returns at most one digest per receiver: the receivers of
    the digests returned are pairwise distinct. *)
Theorem findDigestNotifications_one_digest_per_receiver
    (gtInvalidDate : Z → bool) (now : Z) (frequency : string) (db : DB.t) :
  NoDup (map User._id (DB.users db)) →
  ∃ digests,
    fst (DatabaseHelper._findDigestNotifications gtInvalidDate now frequency db)
    = Returned digests
    ∧ NoDup (map (λ d, User._id (Digest.receiver d)) digests).
Proof.
  intros Hu. rewrite findDigestNotifications_run. cbv zeta. eexists.
  split; [reflexivity|]. rewrite map_map. simpl.
  apply joined_receivers_NoDup; [exact Hu|].
  apply groupByReceiver_keys.
Qed.

(** Three selected notifications, two of them for the same receiver, and
    two user records: two digests, one for each receiver. *)
Lemma findDigestNotifications_one_digest_per_receiver_witness :
  ∃ digests,
    fst (DatabaseHelper._findDigestNotifications (λ _, false) Example.now
           EmailFrequency.WEEKLY Sample.twoReceivers)
    = Returned digests
    ∧ NoDup (map (λ d, User._id (Digest.receiver d)) digests)
    ∧ map (λ d, User._id (Digest.receiver d)) digests = ["R"; "S"]
    ∧ length (DatabaseHelper.digestSelection (λ _, false)
                EmailFrequency.WEEKLY (Some (Example.now - 7 * 86400000))
                Sample.twoReceivers) = 3%nat.
Proof.
  destruct (findDigestNotifications_one_digest_per_receiver (λ _, false)
              Example.now EmailFrequency.WEEKLY Sample.twoReceivers)
    as (digests & Hrun & Hnd).
  - simpl. apply NoDup_cons. split; [|apply NoDup_singleton].
    intros [H|[]]%list_elem_of_In. discriminate H.
  - exists digests. split; [exact Hrun|]. split; [exact Hnd|]. split.
    + vm_compute in Hrun. injection Hrun as <-. reflexivity.
    + reflexivity.
Defined.

(** X15. A finder that finds nothing writes nothing: when the instant
    finder returns the empty list, or the digest finder no digest, the store
    is left as it was. *)
Theorem nothing_found_nothing_written :
  (∀ this now db,
     fst (DatabaseHelper._findInstantNotifications this now db) = Returned [] →
     snd (DatabaseHelper._findInstantNotifications this now db) = db)
  ∧ (∀ gtInvalidDate now frequency db,
       fst (DatabaseHelper._findDigestNotifications gtInvalidDate now
              frequency db) = Returned [] →
       snd (DatabaseHelper._findDigestNotifications gtInvalidDate now
              frequency db) = db).
Proof.
  split.
  - intros this now db. rewrite findInstantNotifications_run. simpl.
    intros [= ->]. simpl. rewrite map_id. now destruct db.
  - intros gtInvalidDate now frequency db.
    rewrite findDigestNotifications_run. cbv zeta. simpl.
    intros [= Hnil]. apply map_eq_nil in Hnil. rewrite Hnil. simpl.
    rewrite map_id. now destruct db.
Qed.

Lemma nothing_found_nothing_written_witness :
  snd (DatabaseHelper._findInstantNotifications Example.helper 300001
         Example.oneNotification)
  = Example.oneNotification.
Proof.
  destruct nothing_found_nothing_written as [H _].
  apply (H Example.helper 300001 Example.oneNotification).
  vm_compute. reflexivity.
Defined.

(** ** The unread-message finder: what it returns and when it returns *)

Lemma threadsObject_lookup_In threads id t (m : gmap string Thread.t) :
  foldl (λ accumulator thread, <[Thread._id thread := thread]> accumulator)
    m threads !! id = Some t →
  In t threads ∧ Thread._id t = id ∨ m !! id = Some t.
Proof.
  revert m. induction threads as [|a threads IH]; simpl; intros m H.
  - now right.
  - apply IH in H as [[Hin Hid]|H]; [left; tauto|].
    destruct (decide (Thread._id a = id)) as [Heq|Hne].
    + subst id. rewrite lookup_insert_eq in H. injection H as <-. left. tauto.
    + rewrite lookup_insert_ne in H by exact Hne. now right.
Qed.

Lemma threadsPipeline_In bound db t :
  In t (DatabaseHelper.threadsPipeline bound db)
  ↔ ∃ doc, In doc (DB.threads db)
           ∧ DatabaseHelper.threadMatch bound doc = true
           ∧ t = DatabaseHelper.joinUsers (DB.users db) doc.
Proof.
  unfold DatabaseHelper.threadsPipeline. rewrite in_map_iff. split.
  - intros (doc & <- & [Hin Hm]%filter_In). eauto.
  - intros (doc & Hin & Hm & ->). exists doc. split; [reflexivity|].
    now apply filter_In.
Qed.

Lemma processMessage_receiver threadsObject message m :
  DatabaseHelper.processMessage threadsObject message = Returned (Some m) →
  ∃ thread u,
    threadsObject !! MessageGroup._id message = Some thread
    ∧ In u (Thread.users thread)
    ∧ User._id u
      = Participant.id (Receiver.participant (UnreadMessage.receiver m))
    ∧ Receiver.email (UnreadMessage.receiver m) = User.email u
    ∧ (User.notifyPrefs u = None
       ∨ ∃ prefs instant,
           User.notifyPrefs u = Some prefs
           ∧ NotifyPrefs.instant prefs = Some instant
           ∧ InstantPrefs.message instant = true).
Proof.
  unfold DatabaseHelper.processMessage.
  destruct (threadsObject !! _) as [thread|]; [|discriminate].
  destruct (DatabaseHelper.resolvePair _) as [[sender receiver]|];
    [|discriminate].
  destruct (find _ (Thread.users thread)) as [u|] eqn:Hfind; [|discriminate].
  apply find_some in Hfind as [Hu Hid]. apply String.eqb_eq in Hid.
  intros H. exists thread, u. split; [reflexivity|].
  destruct (User.notifyPrefs u) as [prefs|] eqn:Hprefs.
  - destruct (NotifyPrefs.instant prefs) as [instant|] eqn:Hinstant;
      [|discriminate].
    destruct (InstantPrefs.message instant) eqn:Hmessage; [|discriminate].
    injection H as <-. simpl. repeat split; auto.
    right. exists prefs, instant. now rewrite Hmessage.
  - injection H as <-. simpl. repeat split; auto.
Qed.

Lemma drainCursor_In threadsObject cursor :
  ∀ messages l,
    DatabaseHelper.drainCursor threadsObject cursor messages = Returned l →
    ∀ m, In m l →
         In m messages
         ∨ ∃ g, In g cursor
                ∧ DatabaseHelper.processMessage threadsObject g
                  = Returned (Some m).
Proof.
  induction cursor as [|g rest IH]; simpl; intros messages l H m Hm.
  - injection H as <-. now left.
  - destruct (DatabaseHelper.processMessage threadsObject g)
      as [[pushed|]|e] eqn:Hp; [| |discriminate].
    + destruct (IH _ _ H m Hm) as [Hacc|(g' & Hg' & Hp')].
      * apply in_app_or in Hacc as [Hacc|[<-|[]]]; [now left|].
        right. exists g. split; [now left|exact Hp].
      * right. exists g'. split; [now right|exact Hp'].
    + destruct (IH _ _ H m Hm) as [Hacc|(g' & Hg' & Hp')]; [now left|].
      right. exists g'. split; [now right|exact Hp'].
Qed.

(** Sorting with [(a, b) => key(a) - key(b)] puts the keys in ascending
    order. *)
Lemma sort_ascending {A} (key : A → Z) l :
  StronglySorted (λ a b, key a ≤ key b) (Js.sort (λ a b, key a - key b) l).
Proof.
  induction l as [|x l IH]; [constructor|].
  unfold Js.sort in *. simpl.
  set (sorted := foldr _ _ l) in *. clearbody sorted.
  induction sorted as [|y sorted IHs]; simpl.
  - repeat constructor.
  - inversion IH as [|? ? Hs Hall]; subst.
    destruct (Z.leb_spec (key x - key y) 0) as [Hle|Hgt].
    + constructor; [exact IH|]. constructor; [lia|].
      rewrite Forall_forall in *. intros z Hz. specialize (Hall z Hz).
      simpl in *. lia.
    + constructor; [now apply IHs|].
      rewrite Forall_forall in *. intros z Hz.
      apply list_elem_of_In in Hz.
      apply (Permutation_in _ (insertBy_perm _ x sorted)) in Hz.
      destruct Hz as [<-|Hz]; [lia|]. apply Hall. now apply list_elem_of_In.
Qed.

(** The [$group] stage with [$last] over a stream sorted by creation date:
    one group per thread, holding a message of the thread that no message
    of the thread seen so far was created after. *)
Lemma latest_groups sorted :
  ∀ seen (groups : list (string * Message.t)),
    StronglySorted (λ a b, Message.createdAt a ≤ Message.createdAt b) sorted →
    (∀ s x, In s seen → In x sorted →
            Message.createdAt s ≤ Message.createdAt x) →
    NoDup (map fst groups) →
    (∀ k v, In (k, v) groups →
            In v seen ∧ Message.threadId v = k
            ∧ ∀ m, In m seen → Message.threadId m = k →
                   Message.createdAt m ≤ Message.createdAt v) →
    let groups' :=
      foldl (λ groups m, Js.set groups (Message.threadId m) m) groups sorted in
    NoDup (map fst groups')
    ∧ ∀ k v, In (k, v) groups' →
             In v (seen ++ sorted) ∧ Message.threadId v = k
             ∧ ∀ m, In m (seen ++ sorted) → Message.threadId m = k →
                    Message.createdAt m ≤ Message.createdAt v.
Proof.
  induction sorted as [|x sorted IH]; intros seen groups Hs Hle Hnd Hinv.
  { simpl. rewrite app_nil_r. now split. }
  cbn [foldl]. replace (seen ++ x :: sorted) with ((seen ++ [x]) ++ sorted)
    by now rewrite <- app_assoc.
  inversion Hs as [|? ? Hs' Hall]; subst. rewrite Forall_forall in Hall.
  assert (Hx : ∀ m, In m (seen ++ [x]) →
                    Message.createdAt m ≤ Message.createdAt x).
  { intros m [Hm|[<-|[]]]%in_app_or; [|lia]. apply Hle; [exact Hm|now left]. }
  apply IH; clear IH; [exact Hs'| | |].
  - intros s y [Hs0|[<-|[]]]%in_app_or Hy.
    + apply Hle; [exact Hs0|now right].
    + apply Hall. now apply list_elem_of_In.
  - unfold Js.set.
    destruct (Js.hasOwnProperty groups (Message.threadId x)) eqn:Hhas.
    + now rewrite update_keys.
    + rewrite map_app. simpl. apply NoDup_app. repeat split; [exact Hnd| |].
      * intros k Hk [Heq|[]]%list_elem_of_In. rewrite <- Heq in Hk.
        apply list_elem_of_In, hasOwnProperty_keys in Hk. congruence.
      * apply NoDup_singleton.
  - intros k v Hin.
    assert (Hold : In (k, v) groups → k ≠ Message.threadId x →
                   In v (seen ++ [x]) ∧ Message.threadId v = k
                   ∧ ∀ m, In m (seen ++ [x]) → Message.threadId m = k →
                          Message.createdAt m ≤ Message.createdAt v).
    { intros Hold Hne. destruct (Hinv k v Hold) as (Hv & Hk & Hmax).
      repeat split; [apply in_or_app; now left|exact Hk|].
      intros m [Hm|[<-|[]]]%in_app_or Hmk; [now apply Hmax|congruence]. }
    assert (Hnew : In x (seen ++ [x]) ∧ Message.threadId x = Message.threadId x
                   ∧ ∀ m, In m (seen ++ [x]) →
                          Message.threadId m = Message.threadId x →
                          Message.createdAt m ≤ Message.createdAt x).
    { repeat split; [apply in_or_app; right; now left|]. intros m Hm _.
      now apply Hx. }
    unfold Js.set in Hin.
    destruct (Js.hasOwnProperty groups (Message.threadId x)) eqn:Hhas.
    + apply update_In in Hin as [[Hne Hin]|[-> (v0 & _ & ->)]]; auto.
    + apply in_app_or in Hin as [Hin|[[= <- <-]|[]]]; [|exact Hnew].
      apply Hold; [exact Hin|]. intros ->.
      eapply hasOwnProperty_false; eauto.
Qed.

Lemma messagesPipeline_groups threadIds db :
  NoDup (map MessageGroup._id (DatabaseHelper.messagesPipeline threadIds db))
  ∧ ∀ g, In g (DatabaseHelper.messagesPipeline threadIds db) →
         In (MessageGroup.latestMessage g) (DB.messages db)
         ∧ Message.threadId (MessageGroup.latestMessage g) = MessageGroup._id g
         ∧ ∀ m, In m (DB.messages db) →
                Message.threadId m = MessageGroup._id g →
                Message.createdAt m
                ≤ Message.createdAt (MessageGroup.latestMessage g).
Proof.
  unfold DatabaseHelper.messagesPipeline. cbv zeta.
  set (matched := List.filter _ (DB.messages db)).
  destruct (latest_groups
              (Js.sort (λ a b, Message.createdAt a - Message.createdAt b) matched)
              [] []) as [Hnd Hinv].
  - apply (sort_ascending Message.createdAt).
  - intros ? ? [].
  - constructor.
  - intros ? ? [].
  - simpl in Hinv. split.
    + now rewrite map_map.
    + intros g ([k v] & <- & Hin)%in_map_iff. simpl.
      destruct (Hinv k v Hin) as (Hv & Hk & Hmax).
      apply sort_In in Hv. pose proof Hv as [Hstored Hlisted]%filter_In.
      repeat split; [exact Hstored|exact Hk|].
      intros m Hm Hmk. apply Hmax; [|exact Hmk].
      apply sort_In, filter_In. split; [exact Hm|]. now rewrite Hmk, <- Hk.
Qed.

Lemma findUnreadDirectMessages_run this now db :
  let threads :=
    DatabaseHelper.threadsPipeline (instantBound this now) db in
  fst (DatabaseHelper.findUnreadDirectMessages this now db)
  = DatabaseHelper.drainCursor
      (foldl (λ accumulator thread, <[Thread._id thread := thread]> accumulator)
         ∅ threads)
      (DatabaseHelper.messagesPipeline (map Thread._id threads) db) [].
Proof. reflexivity. Qed.

(** What an element of the result comes from: a message group of the cursor
    and the joined thread it belongs to. *)
Lemma findUnreadDirectMessages_origin this now db l m :
  fst (DatabaseHelper.findUnreadDirectMessages this now db) = Returned l →
  In m l →
  ∃ g doc,
    In g (DatabaseHelper.messagesPipeline
            (map Thread._id
               (DatabaseHelper.threadsPipeline (instantBound this now) db)) db)
    ∧ In doc (DB.threads db)
    ∧ DatabaseHelper.threadMatch (instantBound this now) doc = true
    ∧ ThreadDoc._id doc = MessageGroup._id g
    ∧ DatabaseHelper.processMessage
        {[ MessageGroup._id g := DatabaseHelper.joinUsers (DB.users db) doc ]} g
      = Returned (Some m).
Proof.
  rewrite findUnreadDirectMessages_run. cbv zeta. intros Hrun Hm.
  destruct (drainCursor_In _ _ _ _ Hrun m Hm) as [[]|(g & Hg & Hp)].
  exists g.
  pose proof Hp as (thread & Hlookup & _)%processMessage_pushed.
  pose proof Hlookup as [[Hin Hid]|Hempty]%threadsObject_lookup_In;
    [|now rewrite lookup_empty in Hempty].
  apply threadsPipeline_In in Hin as (doc & Hdoc & Hmatch & ->).
  exists doc. repeat split; auto.
  unfold DatabaseHelper.processMessage in *.
  now rewrite Hlookup in Hp; rewrite lookup_singleton_eq.
Qed.

(** X16. Every element the unread-message finder returns carries the latest
    message of its thread: a stored message that no stored message of the
    same thread was created after.  Its sender and receiver are participants
    of a stored thread with that identifier, in which some participant has
    unread messages, some participant last accessed it before now minus the
    lookback interval, and some participant has the status accepted or
    pending (the three need not be the same participant). *)
Theorem findUnreadDirectMessages_latest_message
    (this : DatabaseHelper.t) (now : Z) (db : DB.t)
    (l : list UnreadMessage.t) (m : UnreadMessage.t) :
  fst (DatabaseHelper.findUnreadDirectMessages this now db) = Returned l →
  In m l →
  In (UnreadMessage.message m) (DB.messages db)
  ∧ (∀ other, In other (DB.messages db) →
              Message.threadId other = threadOf m →
              Message.createdAt other
              ≤ Message.createdAt (UnreadMessage.message m))
  ∧ ∃ doc,
      In doc (DB.threads db)
      ∧ ThreadDoc._id doc = threadOf m
      ∧ In (UnreadMessage.sender m) (ThreadDoc.participants doc)
      ∧ In (Receiver.participant (UnreadMessage.receiver m))
          (ThreadDoc.participants doc)
      ∧ (∃ p, In p (ThreadDoc.participants doc)
              ∧ 0 < Participant.newMessages p)
      ∧ (∃ p, In p (ThreadDoc.participants doc)
              ∧ Participant.lastAccess p
                < now - DatabaseHelper.instantUnreadLookbackInterval this * 60000)
      ∧ (∃ p, In p (ThreadDoc.participants doc)
              ∧ (Participant.status p = MessageThreadStatus.ACCEPTED
                 ∨ Participant.status p = MessageThreadStatus.PENDING)).
Proof.
  intros Hrun Hm.
  destruct (findUnreadDirectMessages_origin _ _ _ _ _ Hrun Hm)
    as (g & doc & Hg & Hdoc & Hmatch & Hid & Hp).
  apply processMessage_pushed in Hp as (thread & Hlookup & Hpair & Hmsg).
  rewrite lookup_singleton_eq in Hlookup. injection Hlookup as <-.
  apply resolvePair_Some in Hpair as (Hs & _ & Hr & _). simpl in Hs, Hr.
  destruct (proj2 (messagesPipeline_groups _ db) g Hg)
    as (Hstored & Hthread & Hmax).
  rewrite Hmsg, Hthread. split; [exact Hstored|]. split; [exact Hmax|].
  exists doc. repeat split; auto.
  all: unfold DatabaseHelper.threadMatch in Hmatch;
    apply andb_true_iff in Hmatch as [[Hnew Hacc]%andb_true_iff Hst].
  - apply existsb_exists in Hnew as (p & Hp & Hlt).
    apply Z.ltb_lt in Hlt. eauto.
  - apply existsb_exists in Hacc as (p & Hp & Hlt).
    apply Z.ltb_lt in Hlt. exists p. split; [exact Hp|].
    unfold DateHelper.subtractMinutes in Hlt. exact Hlt.
  - apply existsb_exists in Hst as (p & Hp & Hin). exists p. split; [exact Hp|].
    cbn [existsb] in Hin. apply orb_true_iff in Hin as [Hin|Hin].
    + left. now apply String.eqb_eq.
    + apply orb_true_iff in Hin as [Hin|Hin]; [|discriminate].
      right. now apply String.eqb_eq.
Qed.

Lemma findUnreadDirectMessages_latest_message_witness :
  In (UnreadMessage.message Example.unread1) (DB.messages Example.inbox)
  ∧ ∃ doc,
      In doc (DB.threads Example.inbox)
      ∧ ThreadDoc._id doc = threadOf Example.unread1.
Proof.
  destruct (findUnreadDirectMessages_latest_message Example.helper Example.now
              Example.inbox [Example.unread1] Example.unread1)
    as (H1 & _ & doc & H2 & H3 & _).
  - vm_compute. reflexivity.
  - now left.
  - split; [exact H1|]. exists doc. now split.
Defined.

(** X17. The receiver of every element returned has a user record: the
    email of the element is the email of a stored user whose identifier is
    the receiver's, and that user has not turned instant notifications for
    messages off (the record has no preferences, or the flag is set). *)
Theorem findUnreadDirectMessages_receiver
    (this : DatabaseHelper.t) (now : Z) (db : DB.t)
    (l : list UnreadMessage.t) (m : UnreadMessage.t) :
  fst (DatabaseHelper.findUnreadDirectMessages this now db) = Returned l →
  In m l →
  ∃ u,
    In u (DB.users db)
    ∧ User._id u
      = Participant.id (Receiver.participant (UnreadMessage.receiver m))
    ∧ Receiver.email (UnreadMessage.receiver m) = User.email u
    ∧ (User.notifyPrefs u = None
       ∨ ∃ prefs instant,
           User.notifyPrefs u = Some prefs
           ∧ NotifyPrefs.instant prefs = Some instant
           ∧ InstantPrefs.message instant = true).
Proof.
  intros Hrun Hm.
  destruct (findUnreadDirectMessages_origin _ _ _ _ _ Hrun Hm)
    as (g & doc & _ & _ & _ & _ & Hp).
  apply processMessage_receiver in Hp
    as (thread & u & Hlookup & Hu & Hid & Hemail & Hprefs).
  rewrite lookup_singleton_eq in Hlookup. injection Hlookup as <-.
  simpl in Hu. apply filter_In in Hu as [Hu _].
  exists u. tauto.
Qed.

Lemma findUnreadDirectMessages_receiver_witness :
  ∃ u,
    In u (DB.users Example.inbox)
    ∧ User._id u
      = Participant.id
          (Receiver.participant (UnreadMessage.receiver Example.unread1))
    ∧ Receiver.email (UnreadMessage.receiver Example.unread1) = User.email u.
Proof.
  destruct (findUnreadDirectMessages_receiver Example.helper Example.now
              Example.inbox [Example.unread1] Example.unread1)
    as (u & H1 & H2 & H3 & _).
  - vm_compute. reflexivity.
  - now left.
  - exists u. tauto.
Defined.

Lemma drainCursor_threads threadsObject cursor :
  NoDup (map MessageGroup._id cursor) →
  (∀ g, In g cursor →
        Message.threadId (MessageGroup.latestMessage g) = MessageGroup._id g) →
  ∀ messages l,
    NoDup (map (λ m, threadOf m) messages) →
    (∀ m, In m messages → ¬ In (threadOf m) (map MessageGroup._id cursor)) →
    DatabaseHelper.drainCursor threadsObject cursor messages = Returned l →
    NoDup (map (λ m, threadOf m) l).
Proof.
  induction cursor as [|g rest IH]; simpl; intros Hnd Hid messages l Hacc Hnew H.
  - now injection H as <-.
  - apply NoDup_cons in Hnd as [Hg Hrest].
    destruct (DatabaseHelper.processMessage threadsObject g)
      as [[pushed|]|e] eqn:Hp; [| |discriminate].
    + apply processMessage_pushed in Hp as (_ & _ & _ & Hmsg).
      assert (Hthread : threadOf pushed = MessageGroup._id g).
      { rewrite Hmsg. apply Hid. now left. }
      apply (IH Hrest (λ g' Hg', Hid g' (or_intror Hg')) _ _) in H;
        [exact H| |].
      * rewrite map_app. simpl. apply NoDup_app.
        repeat split; [exact Hacc| |apply NoDup_singleton].
        intros k Hk [Heq|[]]%list_elem_of_In. rewrite <- Heq in Hk.
        apply list_elem_of_In, in_map_iff in Hk as (m & Hm & Hin).
        apply (Hnew m Hin). left. congruence.
      * intros m [Hm|[<-|[]]]%in_app_or Hin.
        -- apply (Hnew m Hm). now right.
        -- apply Hg, list_elem_of_In. now rewrite <- Hthread.
    + apply (IH Hrest (λ g' Hg', Hid g' (or_intror Hg')) _ _) in H;
        [exact H|exact Hacc|].
      intros m Hm Hin. apply (Hnew m Hm). now right.
Qed.

(** X18. The unread-message finder returns at most one element per thread:
    the threads of the messages returned are pairwise distinct. *)
Theorem findUnreadDirectMessages_one_per_thread
    (this : DatabaseHelper.t) (now : Z) (db : DB.t)
    (l : list UnreadMessage.t) :
  fst (DatabaseHelper.findUnreadDirectMessages this now db) = Returned l →
  NoDup (map (λ m, threadOf m) l).
Proof.
  rewrite findUnreadDirectMessages_run. cbv zeta.
  destruct (messagesPipeline_groups
              (map Thread._id
                 (DatabaseHelper.threadsPipeline (instantBound this now) db))
              db) as [Hnd Hgroups].
  apply drainCursor_threads; [exact Hnd| |constructor|intros ? []].
  intros g Hg. now destruct (Hgroups g Hg) as (_ & H & _).
Qed.

Lemma findUnreadDirectMessages_one_per_thread_witness :
  NoDup (map (λ m, threadOf m) [Example.unread1]).
Proof.
  apply (findUnreadDirectMessages_one_per_thread Example.helper Example.now
           Example.inbox [Example.unread1]).
  vm_compute. reflexivity.
Defined.

Lemma drainCursor_returns threadsObject cursor :
  (∀ g, In g cursor →
        ∃ r, DatabaseHelper.processMessage threadsObject g = Returned r) →
  ∀ messages,
    ∃ l, DatabaseHelper.drainCursor threadsObject cursor messages = Returned l.
Proof.
  induction cursor as [|g rest IH]; simpl; intros Hall messages; [eauto|].
  destruct (Hall g) as [[pushed|] ->]; [now left| |];
    apply IH; intros g' Hg'; apply Hall; now right.
Qed.

(** X19. The unread-message finder returns, without throwing, whenever
    every participant with unread messages of every stored thread has a user
    record and every user record that has notification preferences has the
    instant preferences in them. *)
Theorem findUnreadDirectMessages_returns
    (this : DatabaseHelper.t) (now : Z) (db : DB.t) :
  (∀ doc p, In doc (DB.threads db) → In p (ThreadDoc.participants doc) →
            0 < Participant.newMessages p →
            ∃ u, In u (DB.users db) ∧ User._id u = Participant.id p) →
  (∀ u prefs, In u (DB.users db) → User.notifyPrefs u = Some prefs →
              NotifyPrefs.instant prefs ≠ None) →
  ∃ l, fst (DatabaseHelper.findUnreadDirectMessages this now db) = Returned l.
Proof.
  intros Hrecords Hprefs. rewrite findUnreadDirectMessages_run. cbv zeta.
  apply drainCursor_returns. intros g Hg.
  destruct (cursor_threads_found _ _ _ Hg) as [thread Hlookup].
  pose proof Hlookup as [[Hin _]|Hempty]%threadsObject_lookup_In;
    [|now rewrite lookup_empty in Hempty].
  apply threadsPipeline_In in Hin as (doc & Hdoc & _ & ->).
  unfold DatabaseHelper.processMessage. rewrite Hlookup.
  destruct (DatabaseHelper.resolvePair _) as [[sender receiver]|] eqn:Hpair;
    [|eauto].
  apply resolvePair_Some in Hpair as (_ & _ & Hr & Hunread). simpl in Hr.
  destruct (Hrecords doc receiver Hdoc Hr Hunread) as (u & Hu & Hid).
  destruct (find _ _) as [receiverUser|] eqn:Hfind; simpl in Hfind.
  - apply find_some in Hfind as [[Hin _]%filter_In _].
    destruct (User.notifyPrefs receiverUser) as [prefs|] eqn:Hp; [|eauto].
    destruct (NotifyPrefs.instant prefs) as [instant|] eqn:Hi.
    + destruct (negb _); eauto.
    + exfalso. exact (Hprefs receiverUser prefs Hin Hp Hi).
  - exfalso. assert (Hin : In u (List.filter
                                   (λ u, existsb
                                           (λ p, String.eqb (Participant.id p)
                                                   (User._id u))
                                           (ThreadDoc.participants doc))
                                   (DB.users db))).
    { apply filter_In. split; [exact Hu|].
      apply existsb_exists. exists receiver. split; [exact Hr|].
      rewrite Hid. apply String.eqb_refl. }
    apply (find_none _ _ Hfind) in Hin. simpl in Hin.
    now rewrite Hid, String.eqb_refl in Hin.
Qed.

Lemma findUnreadDirectMessages_returns_witness :
  ∃ l,
    fst (DatabaseHelper.findUnreadDirectMessages Example.helper Example.now
           Example.inbox) = Returned l.
Proof.
  apply (findUnreadDirectMessages_returns Example.helper Example.now
           Example.inbox).
  - intros doc p [<-|[]] [<-|[<-|[]]] Hunread.
    + vm_compute in Hunread. discriminate.
    + eexists. split; [right; left; reflexivity|reflexivity].
  - intros u prefs [<-|[<-|[<-|[]]]]; discriminate.
Defined.

(** X20. Without unread messages there is nothing to report: when no
    participant of any stored thread has a positive count of unread
    messages, the finder returns the empty list, whatever messages are
    stored. *)
Theorem findUnreadDirectMessages_nothing_unread
    (this : DatabaseHelper.t) (now : Z) (db : DB.t) :
  (∀ doc p, In doc (DB.threads db) → In p (ThreadDoc.participants doc) →
            Participant.newMessages p ≤ 0) →
  fst (DatabaseHelper.findUnreadDirectMessages this now db) = Returned [].
Proof.
  intros Hnone. rewrite findUnreadDirectMessages_run. cbv zeta.
  assert (Hthreads :
    DatabaseHelper.threadsPipeline (instantBound this now) db = []).
  { unfold DatabaseHelper.threadsPipeline.
    replace (List.filter _ (DB.threads db)) with (@nil ThreadDoc.t);
      [reflexivity|].
    symmetry. induction (DB.threads db) as [|doc docs IH]; [reflexivity|].
    simpl. assert (Hdoc : DatabaseHelper.threadMatch (instantBound this now) doc
                          = false).
    { unfold DatabaseHelper.threadMatch.
      replace (existsb _ (ThreadDoc.participants doc)) with false;
        [reflexivity|].
      symmetry. apply not_true_is_false.
      intros (p & Hp & Hlt)%existsb_exists. apply Z.ltb_lt in Hlt.
      specialize (Hnone doc p (or_introl eq_refl) Hp). lia. }
    rewrite Hdoc. apply IH. intros doc' p Hdoc' Hp.
    apply (Hnone doc' p); [now right|exact Hp]. }
  rewrite Hthreads. simpl.
  unfold DatabaseHelper.messagesPipeline. cbv zeta.
  replace (List.filter _ (DB.messages db)) with (@nil Message.t);
    [reflexivity|].
  symmetry. induction (DB.messages db) as [|m ms IH]; [reflexivity|exact IH].
Qed.

(** Two threads with three stored messages, every participant having read
    everything; with an unread count of three for one participant the same
    thread and messages give an element ([Example.inbox]). *)
Lemma findUnreadDirectMessages_nothing_unread_witness :
  fst (DatabaseHelper.findUnreadDirectMessages Example.helper Example.now
         Sample.allRead) = Returned []
  ∧ length (DB.threads Sample.allRead) = 2%nat
  ∧ length (DB.messages Sample.allRead) = 3%nat.
Proof.
  split; [|split; reflexivity].
  apply (findUnreadDirectMessages_nothing_unread Example.helper Example.now
           Sample.allRead).
  intros doc p [<-|[<-|[]]] [<-|[<-|[]]]; simpl; lia.
Defined.

Lemma aggregate_keeps_the_top_witness :
  In Sample.lonely Sample.fourPosts
  ∧ tally (onPost (postIdOf Sample.lonely)) Sample.fourPosts
    + tally (λ m, onPost (postIdOf Sample.lonely) m && ofKind "total" m)
        Sample.fourPosts
    ≤ total Sample.aggregateOfC.
Proof.
  split; [do 7 right; left; reflexivity|].
  apply (aggregate_keeps_the_top Sample.fourPosts Sample.aggregateOfC
           Sample.lonely).
  - intros m Hm. simpl in Hm.
    repeat (destruct Hm as [<-|Hm]; [split; discriminate|]). destruct Hm.
  - vm_compute. right. right. left. reflexivity.
  - do 7 right. left. reflexivity.
  - vm_compute. intros [H|[H|[H|[]]]]; discriminate H.
Defined.

(** ** Resolving the sender and the receiver *)

Lemma resolvePair_two p1 p2 sender receiver :
  paired p1 p2 sender receiver →
  Participant.newMessages sender = 0 →
  0 < Participant.newMessages receiver →
  DatabaseHelper.resolvePair [p1; p2] = Some (sender, receiver).
Proof.
  intros [[-> ->]|[-> ->]] Hs Hr; unfold DatabaseHelper.resolvePair; simpl;
    decide_counts.
Qed.

Lemma resolvePair_none p1 p2 :
  Participant.newMessages p1 = 0 ∧ Participant.newMessages p2 = 0
  ∨ Participant.newMessages p1 ≠ 0 ∧ Participant.newMessages p2 ≠ 0 →
  DatabaseHelper.resolvePair [p1; p2] = None.
Proof.
  unfold DatabaseHelper.resolvePair. simpl.
  intros [[H1 H2]|[H1 H2]]; decide_counts.
Qed.

Lemma processMessage_resolved threadsObject message thread sender receiver u :
  threadsObject !! MessageGroup._id message = Some thread →
  DatabaseHelper.resolvePair (Thread.participants thread)
  = Some (sender, receiver) →
  find (λ user, String.eqb (User._id user) (Participant.id receiver))
    (Thread.users thread) = Some u →
  notifiable u →
  DatabaseHelper.processMessage threadsObject message
  = Returned
      (Some {| UnreadMessage.sender := sender;
               UnreadMessage.receiver :=
                 {| Receiver.participant := receiver;
                    Receiver.email := User.email u |};
               UnreadMessage.message := MessageGroup.latestMessage message |}).
Proof.
  intros Hthread Hpair Huser Hprefs. unfold DatabaseHelper.processMessage.
  rewrite Hthread, Hpair, Huser. cbv zeta.
  destruct Hprefs as [->|(prefs & instant & -> & -> & ->)]; reflexivity.
Qed.

Lemma drainCursor_complete threadsObject cursor :
  ∀ messages l,
    DatabaseHelper.drainCursor threadsObject cursor messages = Returned l →
    (∀ m, In m messages → In m l)
    ∧ ∀ g m, In g cursor →
             DatabaseHelper.processMessage threadsObject g
             = Returned (Some m) →
             In m l.
Proof.
  induction cursor as [|g rest IH]; simpl; intros messages l H.
  - injection H as <-. split; [tauto|intros ? ? []].
  - destruct (DatabaseHelper.processMessage threadsObject g)
      as [[pushed|]|e] eqn:Hp; [| |discriminate];
      destruct (IH _ _ H) as [Hacc Hrest]; split.
    + intros m Hm. apply Hacc, in_or_app. now left.
    + intros g' m [<-|Hg'] Hp'; [|now apply (Hrest g')].
      rewrite Hp in Hp'. injection Hp' as <-.
      apply Hacc, in_or_app. right. now left.
    + exact Hacc.
    + intros g' m [<-|Hg'] Hp'; [congruence|now apply (Hrest g')].
Qed.

Lemma threadsObject_lookup_notin threads id (m : gmap string Thread.t) :
  ¬ In id (map Thread._id threads) →
  foldl (λ accumulator thread, <[Thread._id thread := thread]> accumulator)
    m threads !! id
  = m !! id.
Proof.
  revert m. induction threads as [|t threads IH]; simpl; intros m Hnot;
    [reflexivity|].
  rewrite IH by tauto. apply lookup_insert_ne. tauto.
Qed.

Lemma threadsObject_lookup_NoDup threads t (m : gmap string Thread.t) :
  NoDup (map Thread._id threads) →
  In t threads →
  foldl (λ accumulator thread, <[Thread._id thread := thread]> accumulator)
    m threads !! Thread._id t
  = Some t.
Proof.
  revert m. induction threads as [|a threads IH]; simpl; intros m Hnd Hin;
    [destruct Hin|].
  apply NoDup_cons in Hnd as [Ha Hnd]. destruct Hin as [->|Hin].
  - rewrite threadsObject_lookup_notin; [apply lookup_insert_eq|].
    intros H. apply Ha. now apply list_elem_of_In.
  - now apply IH.
Qed.

Lemma threadsPipeline_ids_NoDup bound db :
  NoDup (map ThreadDoc._id (DB.threads db)) →
  NoDup (map Thread._id (DatabaseHelper.threadsPipeline bound db)).
Proof.
  intros Hnd. unfold DatabaseHelper.threadsPipeline. rewrite map_map.
  now apply (NoDup_map_filter ThreadDoc._id).
Qed.

Lemma set_has {V} (o : list (string * V)) k v : In k (map fst (Js.set o k v)).
Proof.
  unfold Js.set. destruct (Js.hasOwnProperty o k) eqn:Hhas.
  - rewrite update_keys. apply hasOwnProperty_true in Hhas as [v' Hin].
    apply in_map_iff. now exists (k, v').
  - rewrite map_app. apply in_or_app. right. now left.
Qed.

Lemma set_keeps {V} (o : list (string * V)) k v k' :
  In k' (map fst o) → In k' (map fst (Js.set o k v)).
Proof.
  unfold Js.set. destruct (Js.hasOwnProperty o k).
  - now rewrite update_keys.
  - rewrite map_app. intros H. apply in_or_app. now left.
Qed.

(** Every thread with a message in the sorted stream has its group. *)
Lemma grouped_complete (sorted : list Message.t) :
  ∀ groups k,
    In k (map fst groups) ∨ In k (map Message.threadId sorted) →
    In k (map fst (foldl (λ groups m, Js.set groups (Message.threadId m) m)
                     groups sorted)).
Proof.
  induction sorted as [|m sorted IH]; simpl; intros groups k H; [tauto|].
  apply IH. destruct H as [H|[<-|H]].
  - left. now apply set_keeps.
  - left. apply set_has.
  - now right.
Qed.

Lemma messagesPipeline_complete threadIds db stored :
  In stored (DB.messages db) →
  In (Message.threadId stored) threadIds →
  ∃ g, In g (DatabaseHelper.messagesPipeline threadIds db)
       ∧ MessageGroup._id g = Message.threadId stored.
Proof.
  intros Hstored Hid. unfold DatabaseHelper.messagesPipeline. cbv zeta.
  set (sorted := Js.sort _ _).
  assert (Hk : In (Message.threadId stored)
                 (map fst (foldl (λ groups m,
                                  Js.set groups (Message.threadId m) m)
                             [] sorted))).
  { apply grouped_complete. right. apply in_map_iff. exists stored.
    split; [reflexivity|]. apply sort_In, filter_In.
    split; [exact Hstored|]. now apply listed_id. }
  apply in_map_iff in Hk as ([k v] & Hk & Hin). simpl in Hk. subst k.
  exists {| MessageGroup._id := Message.threadId stored;
            MessageGroup.latestMessage := v |}.
  split; [|reflexivity].
  apply in_map_iff. exists (Message.threadId stored, v). now split.
Qed.

Lemma find_is_Some {A} (p : A → bool) l x :
  In x l → p x = true → ∃ y, find p l = Some y.
Proof.
  intros Hin Hp. destruct (find p l) eqn:Hf; [eauto|].
  apply (find_none _ _ Hf) in Hin. congruence.
Qed.

Lemma NoDup_map_In_inj {A B} (f : A → B) l a b :
  NoDup (map f l) → In a l → In b l → f a = f b → a = b.
Proof.
  induction l as [|x l IH]; simpl; [tauto|].
  intros [Hx Hl]%NoDup_cons [->|Ha] [->|Hb] Heq; auto.
  - exfalso. apply Hx, list_elem_of_In, in_map_iff. exists b.
    split; [now symmetry|exact Hb].
  - exfalso. apply Hx, list_elem_of_In, in_map_iff. exists a.
    split; [exact Heq|exact Ha].
Qed.

(** A matched thread of two participants with a message, one of them
    without unread messages and the other with some, gives an element of the
    result with the first as sender and the second as receiver. *)
Lemma findUnreadDirectMessages_resolves this now db l doc p1 p2
    sender receiver :
  NoDup (map ThreadDoc._id (DB.threads db)) →
  fst (DatabaseHelper.findUnreadDirectMessages this now db) = Returned l →
  In doc (DB.threads db) →
  ThreadDoc.participants doc = [p1; p2] →
  DatabaseHelper.threadMatch (instantBound this now) doc = true →
  (∃ stored, In stored (DB.messages db)
             ∧ Message.threadId stored = ThreadDoc._id doc) →
  paired p1 p2 sender receiver →
  Participant.newMessages sender = 0 →
  0 < Participant.newMessages receiver →
  (∃ u, In u (DB.users db) ∧ User._id u = Participant.id receiver) →
  (∀ u, In u (DB.users db) → User._id u = Participant.id receiver →
        notifiable u) →
  ∃ m, In m l
       ∧ UnreadMessage.sender m = sender
       ∧ Receiver.participant (UnreadMessage.receiver m) = receiver
       ∧ threadOf m = ThreadDoc._id doc.
Proof.
  intros Hnd Hrun Hdoc Hparts Hmatch (stored & Hstored & Hthread) Hpair Hs Hr
    (u & Hu & Hid) Hprefs.
  rewrite findUnreadDirectMessages_run in Hrun. cbv zeta in Hrun.
  set (threads := DatabaseHelper.threadsPipeline (instantBound this now) db)
    in *.
  set (t := DatabaseHelper.joinUsers (DB.users db) doc).
  assert (Ht : In t threads).
  { apply threadsPipeline_In. exists doc. auto. }
  pose proof (threadsObject_lookup_NoDup threads t ∅
                (threadsPipeline_ids_NoDup _ _ Hnd) Ht) as Hlookup.
  destruct (messagesPipeline_complete (map Thread._id threads) db stored
              Hstored) as (g & Hg & Hgid).
  { rewrite Hthread. apply in_map_iff. exists t. now split. }
  assert (Hreceiver : In receiver (ThreadDoc.participants doc)).
  { rewrite Hparts. destruct Hpair as [[_ ->]|[_ ->]]; simpl; tauto. }
  destruct (find_is_Some
              (λ user, String.eqb (User._id user) (Participant.id receiver))
              (Thread.users t) u) as [u' Hfind].
  { simpl. apply filter_In. split; [exact Hu|].
    apply existsb_exists. exists receiver. split; [exact Hreceiver|].
    rewrite Hid. apply String.eqb_refl. }
  { rewrite Hid. apply String.eqb_refl. }
  pose proof Hfind as [Hin' Heq']%find_some.
  apply String.eqb_eq in Heq'. simpl in Hin'.
  apply filter_In in Hin' as [Hin' _].
  exists {| UnreadMessage.sender := sender;
            UnreadMessage.receiver :=
              {| Receiver.participant := receiver;
                 Receiver.email := User.email u' |};
            UnreadMessage.message := MessageGroup.latestMessage g |}.
  split; [|split; [reflexivity|split; [reflexivity|]]].
  - apply (proj2 (drainCursor_complete _ _ _ _ Hrun) g _ Hg).
    apply (processMessage_resolved _ g t sender receiver u').
    + rewrite Hgid, Hthread. exact Hlookup.
    + simpl. rewrite Hparts. now apply resolvePair_two.
    + exact Hfind.
    + now apply Hprefs.
  - simpl.
    destruct (proj2 (messagesPipeline_groups _ db) g Hg) as (_ & -> & _).
    congruence.
Qed.

(** A thread of two participants in which the two cannot be told apart
    gives no element of the result. *)
Lemma findUnreadDirectMessages_skips this now db l doc p1 p2 :
  NoDup (map ThreadDoc._id (DB.threads db)) →
  fst (DatabaseHelper.findUnreadDirectMessages this now db) = Returned l →
  In doc (DB.threads db) →
  ThreadDoc.participants doc = [p1; p2] →
  Participant.newMessages p1 = 0 ∧ Participant.newMessages p2 = 0
  ∨ Participant.newMessages p1 ≠ 0 ∧ Participant.newMessages p2 ≠ 0 →
  ∀ m, In m l → threadOf m ≠ ThreadDoc._id doc.
Proof.
  intros Hnd Hrun Hdoc Hparts Hfail m Hm Heq.
  destruct (findUnreadDirectMessages_origin _ _ _ _ _ Hrun Hm)
    as (g & doc' & Hg & Hdoc' & _ & Hid & Hp).
  apply processMessage_pushed in Hp as (thread & Hlookup & Hpair & Hmsg).
  rewrite lookup_singleton_eq in Hlookup. injection Hlookup as <-.
  destruct (proj2 (messagesPipeline_groups _ db) g Hg) as (_ & Hthread & _).
  assert (doc' = doc).
  { apply (NoDup_map_In_inj ThreadDoc._id (DB.threads db)); auto.
    rewrite Hid, <- Hthread, <- Hmsg. exact Heq. }
  subst doc'. simpl in Hpair.
  rewrite Hparts, (resolvePair_none _ _ Hfail) in Hpair. discriminate.
Qed.

(** C7. In a thread of two participants the one with no unread message is
    the sender and the one with unread messages is the receiver, whichever
    comes first.  On such a thread the turn of the loop finds this pair, and
    when the receiver's user record is among the joined users and has not
    turned the notifications off, it pushes the element with that sender and
    that receiver, and the loop goes on with it in the result.  When both
    participants have no unread message, or neither has none, there is no
    pair: the turn pushes nothing and the loop goes on with the next
    message.  Every element pushed has a sender with no unread message and a
    receiver with some.  For the method, when it returns, on a store whose
    threads have pairwise distinct identifiers: the result has an element
    with that sender and that receiver for every stored two-participant
    thread that the query matches, that has a message and whose pair
    resolves, when the receiver has a user record that has not turned the
    notifications off; and it has no element for a thread whose pair does
    not resolve. *)
Theorem C7_unread_pair_resolution :
  (∀ threadsObject message thread p1 p2 rest messages,
     threadsObject !! MessageGroup._id message = Some thread →
     Thread.participants thread = [p1; p2] →
     (∀ sender receiver,
        paired p1 p2 sender receiver →
        Participant.newMessages sender = 0 →
        0 < Participant.newMessages receiver →
        DatabaseHelper.resolvePair [p1; p2] = Some (sender, receiver)
        ∧ ∀ u,
            find (λ user, String.eqb (User._id user) (Participant.id receiver))
              (Thread.users thread) = Some u →
            notifiable u →
            let pushed :=
              {| UnreadMessage.sender := sender;
                 UnreadMessage.receiver :=
                   {| Receiver.participant := receiver;
                      Receiver.email := User.email u |};
                 UnreadMessage.message :=
                   MessageGroup.latestMessage message |} in
            DatabaseHelper.processMessage threadsObject message
            = Returned (Some pushed)
            ∧ DatabaseHelper.drainCursor threadsObject (message :: rest)
                messages
              = DatabaseHelper.drainCursor threadsObject rest
                  (messages ++ [pushed]))
     ∧ (Participant.newMessages p1 = 0 ∧ Participant.newMessages p2 = 0
        ∨ Participant.newMessages p1 ≠ 0 ∧ Participant.newMessages p2 ≠ 0 →
        DatabaseHelper.resolvePair [p1; p2] = None
        ∧ DatabaseHelper.processMessage threadsObject message = Returned None
        ∧ DatabaseHelper.drainCursor threadsObject (message :: rest) messages
          = DatabaseHelper.drainCursor threadsObject rest messages)
     ∧ (∀ m,
          DatabaseHelper.processMessage threadsObject message
          = Returned (Some m) →
          paired p1 p2 (UnreadMessage.sender m)
            (Receiver.participant (UnreadMessage.receiver m))
          ∧ Participant.newMessages (UnreadMessage.sender m) = 0
          ∧ 0 < Participant.newMessages
                  (Receiver.participant (UnreadMessage.receiver m))))
  ∧ (∀ this now db l,
       fst (DatabaseHelper.findUnreadDirectMessages this now db) = Returned l →
       Forall (λ m, Participant.newMessages (UnreadMessage.sender m) = 0
                    ∧ 0 < Participant.newMessages
                            (Receiver.participant (UnreadMessage.receiver m)))
         l)
  ∧ (∀ this now db l doc p1 p2,
       NoDup (map ThreadDoc._id (DB.threads db)) →
       fst (DatabaseHelper.findUnreadDirectMessages this now db) = Returned l →
       In doc (DB.threads db) →
       ThreadDoc.participants doc = [p1; p2] →
       (∀ sender receiver,
          DatabaseHelper.threadMatch (instantBound this now) doc = true →
          (∃ stored, In stored (DB.messages db)
                     ∧ Message.threadId stored = ThreadDoc._id doc) →
          paired p1 p2 sender receiver →
          Participant.newMessages sender = 0 →
          0 < Participant.newMessages receiver →
          (∃ u, In u (DB.users db) ∧ User._id u = Participant.id receiver) →
          (∀ u, In u (DB.users db) → User._id u = Participant.id receiver →
                notifiable u) →
          ∃ m, In m l
               ∧ UnreadMessage.sender m = sender
               ∧ Receiver.participant (UnreadMessage.receiver m) = receiver
               ∧ threadOf m = ThreadDoc._id doc)
       ∧ (Participant.newMessages p1 = 0 ∧ Participant.newMessages p2 = 0
          ∨ Participant.newMessages p1 ≠ 0 ∧ Participant.newMessages p2 ≠ 0 →
          ∀ m, In m l → threadOf m ≠ ThreadDoc._id doc)).
Proof.
  split; [|split].
  - intros threadsObject message thread p1 p2 rest messages Hthread Hparts.
    split; [|split].
    + intros sender receiver Hpair Hs Hr.
      pose proof (resolvePair_two _ _ _ _ Hpair Hs Hr) as Hresolved.
      split; [exact Hresolved|]. intros u Hu Hprefs pushed.
      assert (Hpushed : DatabaseHelper.processMessage threadsObject message
                        = Returned (Some pushed)).
      { apply (processMessage_resolved _ _ thread); auto.
        now rewrite Hparts. }
      split; [exact Hpushed|]. simpl. now rewrite Hpushed.
    + intros Hfail. pose proof (resolvePair_none _ _ Hfail) as Hnone.
      assert (Hskip : DatabaseHelper.processMessage threadsObject message
                      = Returned None).
      { unfold DatabaseHelper.processMessage.
        now rewrite Hthread, Hparts, Hnone. }
      repeat split; [exact Hnone|exact Hskip|]. simpl. now rewrite Hskip.
    + intros m (thread' & Hthread' & Hpair & _)%processMessage_pushed.
      rewrite Hthread in Hthread'. injection Hthread' as <-.
      rewrite Hparts in Hpair.
      apply resolvePair_Some in Hpair as (Hs & Hs0 & Hr & Hr0).
      repeat split; [|exact Hs0|exact Hr0].
      simpl in Hs, Hr. unfold paired.
      destruct Hs as [Hs|[Hs|[]]], Hr as [Hr|[Hr|[]]].
      * exfalso. rewrite <- Hs in Hs0. rewrite <- Hr in Hr0. lia.
      * left. split; congruence.
      * right. split; congruence.
      * exfalso. rewrite <- Hs in Hs0. rewrite <- Hr in Hr0. lia.
  - intros this now db l.
    unfold DatabaseHelper.findUnreadDirectMessages, bind, aggregate, lift.
    simpl. apply drainCursor_Forall; [|constructor].
    intros message m (thread & _ & Hpair & _)%processMessage_pushed.
    apply resolvePair_Some in Hpair. tauto.
  - intros this now db l doc p1 p2 Hnd Hrun Hdoc Hparts. split.
    + intros sender receiver Hmatch Hstored Hpair Hs Hr Hu Hprefs.
      now apply (findUnreadDirectMessages_resolves this now db l doc p1 p2).
    + now apply (findUnreadDirectMessages_skips this now db l doc p1 p2).
Qed.

Lemma C7_unread_pair_resolution_witness :
  ∃ m, In m [Example.unread1]
       ∧ UnreadMessage.sender m = Example.P1
       ∧ Receiver.participant (UnreadMessage.receiver m) = Example.P2
       ∧ threadOf m = "T1".
Proof.
  destruct C7_unread_pair_resolution as (_ & _ & H).
  destruct (H Example.helper Example.now Example.inbox [Example.unread1]
              Example.thread1 Example.P1 Example.P2) as [Hresolved _].
  - apply NoDup_singleton.
  - vm_compute. reflexivity.
  - left. reflexivity.
  - reflexivity.
  - apply (Hresolved Example.P1 Example.P2).
    + vm_compute. reflexivity.
    + exists (Example.text "M1" "T1" 10). split; [left|]; reflexivity.
    + left. split; reflexivity.
    + reflexivity.
    + reflexivity.
    + exists (Example.user "U2" "u2@example.org").
      split; [right; left|]; reflexivity.
    + intros u [<-|[<-|[<-|[]]]] _; left; reflexivity.
Defined.

(** ** Who gets a digest, and what is returned once *)

(** X24. Every receiver concerned gets a digest: for every selected
    notification (no stamp of the tier, created in the window) and every
    user record of its receiver, the digest finder returns a digest for that
    user. *)
Theorem findDigestNotifications_covers_receivers
    (gtInvalidDate : Z → bool) (now : Z) (frequency : string) (db : DB.t)
    (n : Notification.t) (u : User.t) :
  In n (DatabaseHelper.digestSelection gtInvalidDate frequency
          (DateHelper.subtractDays now (DatabaseHelper.intervalDays frequency))
          db) →
  In u (DB.users db) →
  User._id u = Notification.receiver n →
  ∃ digests d,
    fst (DatabaseHelper._findDigestNotifications gtInvalidDate now frequency db)
    = Returned digests
    ∧ In d digests
    ∧ Digest.receiver d = u.
Proof.
  intros Hsel Hu Hid. rewrite findDigestNotifications_run. cbv zeta.
  destruct (proj2 (groupByReceiver_In _ (Notification.receiver n) [] n) Hsel)
    as (ns & Hin & Hn).
  eexists. exists (digestOf {| ReceiverGroup._id := Notification.receiver n;
                              ReceiverGroup.notifications := ns;
                              ReceiverGroup.receiver := u |}).
  split; [reflexivity|]. split; [|reflexivity].
  apply in_map_iff.
  exists {| ReceiverGroup._id := Notification.receiver n;
            ReceiverGroup.notifications := ns;
            ReceiverGroup.receiver := u |}.
  split; [reflexivity|]. unfold DatabaseHelper.digestPipeline.
  apply in_flat_map. eexists. split; [exact Hin|].
  unfold DatabaseHelper.joinGroup. simpl. apply in_map_iff.
  exists u. split; [reflexivity|]. apply filter_In. split; [exact Hu|].
  now apply String.eqb_eq.
Qed.

Lemma findDigestNotifications_covers_receivers_witness :
  ∃ digests d,
    fst (DatabaseHelper._findDigestNotifications (λ _, false) Example.now
           EmailFrequency.WEEKLY Example.lastWeek)
    = Returned digests
    ∧ In d digests
    ∧ Digest.receiver d = Example.userR.
Proof.
  apply (findDigestNotifications_covers_receivers (λ _, false) Example.now
           EmailFrequency.WEEKLY Example.lastWeek Example.sixDaysAgo
           Example.userR).
  - vm_compute. left. reflexivity.
  - left. reflexivity.
  - reflexivity.
Defined.

Lemma joined_notifications_NoDup users (ns : list Notification.t) :
  NoDup (map User._id users) →
  NoDup (map Notification._id ns) →
  NoDup (selectedIds (flat_map (DatabaseHelper.joinReceiver users) ns)).
Proof.
  intros Hu. induction ns as [|n ns IH]; simpl; [constructor|].
  intros [Hn Hns]%NoDup_cons. rewrite map_app. apply NoDup_app.
  repeat split; [| |now apply IH].
  - unfold DatabaseHelper.joinReceiver. rewrite map_map. simpl.
    destruct (List.filter _ users) as [|u [|u' rest]] eqn:Hf; simpl.
    + constructor.
    + apply NoDup_singleton.
    + exfalso.
      assert (Hids : NoDup (map User._id (u :: u' :: rest))).
      { rewrite <- Hf. now apply NoDup_map_filter. }
      assert (Hu1 : In u (u :: u' :: rest)) by now left.
      assert (Hu2 : In u' (u :: u' :: rest)) by (right; now left).
      rewrite <- Hf in Hu1, Hu2.
      apply filter_In in Hu1 as [_ H1]. apply filter_In in Hu2 as [_ H2].
      apply String.eqb_eq in H1, H2. simpl in Hids.
      apply NoDup_cons in Hids as [Hnot _]. apply Hnot.
      rewrite H1, <- H2. now left.
  - intros id Hid Hid'. apply Hn.
    apply list_elem_of_In, in_map_iff in Hid as (x & <- & Hx).
    unfold DatabaseHelper.joinReceiver in Hx.
    apply in_map_iff in Hx as (u & <- & _). simpl in *.
    apply list_elem_of_In, in_map_iff in Hid' as (y & Hy & Hin).
    apply in_flat_map in Hin as (n' & Hn' & Hin).
    unfold DatabaseHelper.joinReceiver in Hin.
    apply in_map_iff in Hin as (u' & <- & _). simpl in *.
    apply list_elem_of_In, in_map_iff. now exists n'.
Qed.

(** X25. When the user records have pairwise distinct identifiers and so
    have the stored notifications, the instant finder returns no
    notification twice. *)
Theorem findInstantNotifications_returns_once
    (this : DatabaseHelper.t) (now : Z) (db : DB.t) :
  NoDup (map User._id (DB.users db)) →
  NoDup (map Notification._id (DB.notifications db)) →
  ∃ l,
    fst (DatabaseHelper._findInstantNotifications this now db) = Returned l
    ∧ NoDup (selectedIds l).
Proof.
  intros Hu Hn. rewrite findInstantNotifications_run. eexists.
  split; [reflexivity|]. unfold DatabaseHelper.instantPipeline.
  apply joined_notifications_NoDup; [exact Hu|].
  now apply NoDup_map_filter.
Qed.

(** Three stored notifications, two of them for the same receiver, and two
    user records: three pairs are returned, each notification once. *)
Lemma findInstantNotifications_returns_once_witness :
  ∃ l,
    fst (DatabaseHelper._findInstantNotifications Example.helper Example.now
           Sample.twoReceivers) = Returned l
    ∧ NoDup (selectedIds l)
    ∧ selectedIds l = ["r1"; "s1"; "r2"].
Proof.
  destruct (findInstantNotifications_returns_once Example.helper Example.now
              Sample.twoReceivers) as (l & Hrun & Hnd).
  - simpl. apply NoDup_cons. split; [|apply NoDup_singleton].
    intros [H|[]]%list_elem_of_In. discriminate H.
  - simpl. apply NoDup_cons. split.
    { intros [H|[H|[]]]%list_elem_of_In; discriminate H. }
    apply NoDup_cons. split; [|apply NoDup_singleton].
    intros [H|[]]%list_elem_of_In. discriminate H.
  - exists l. split; [exact Hrun|]. split; [exact Hnd|].
    vm_compute in Hrun. injection Hrun as <-. reflexivity.
Defined.
